(** * carmm: atom re-indexing and interpolation checks ([build/neb.py])

    A shallow embedding of the three functions of [build/neb.py],
    [switch_indices], [switch_all_indices] and [check_interpolation], and
    the properties of the index-permutation engine and of the
    interpolation-path checker that follow from that code.

    Python objects live in a store: [Atoms] objects and calculators are
    addressed by their position in the store, so that the sharing the
    code relies on (one calculator handed from the old [Atoms] object to
    the new one, its [results] dictionary updated in place) is visible.
    Exceptions are an explicit outcome, and the store at the moment an
    exception leaves a function is kept, so that "nothing was changed
    before the error" is a statement about that store.

    The forces a calculator holds are a numpy array, and the two lines
    of [switch_indices] that handle them, [if not f == []] and
    [f[A], f[B] = f[B], f[A]], are embedded with numpy's meaning for an
    array: the comparison with a list is [False] or a [ValueError],
    depending on the version of numpy, and the rows on the right-hand
    side of the assignment are views of the array, not copies. *)

From Stdlib Require Import ZArith QArith Lia.
From stdpp Require Import base option list strings gmap.

Local Open Scope Z_scope.

(** ** Python values *)

#[local] Set Warnings "-register-all".

(** The values the three functions are called with and return.  A float
    carries its value as a rational; [VAtoms] is a reference to an
    [Atoms] object of the store. *)
Inductive pyval : Type :=
  | VNone
  | VBool (b : bool)
  | VInt (z : Z)
  | VFloat (q : Q)
  | VStr (s : string)
  | VAtoms (id : nat)
  | VTuple (items : list pyval).

Inductive exn : Type :=
  | ValueError
  | TypeError
  | IndexError
  | KeyError
  | AttributeError
  | FileNotFoundError
  | ExternalError (origin : string).

Inductive outcome (A : Type) : Type :=
  | Ok (a : A)
  | Raise (e : exn).
Arguments Ok {A} a.
Arguments Raise {A} e.

(** [isinstance(x, int)]: [bool] is a subclass of [int]. *)
Definition isinstance_int (x : pyval) : bool :=
  match x with
  | VInt _ | VBool _ => true
  | _ => false
  end.

(** ** Python list indexing *)

(** The position a subscript denotes in a sequence of length [len]:
    negative integers count from the end, anything outside
    [-len, len) is an [IndexError], a subscript that is not an integer a
    [TypeError]. *)
Definition index_of_int (len : nat) (z : Z) : outcome nat :=
  if (0 <=? z) && (z <? Z.of_nat len) then Ok (Z.to_nat z)
  else if (- Z.of_nat len <=? z) && (z <? 0) then Ok (Z.to_nat (z + Z.of_nat len))
  else Raise IndexError.

Definition py_index (len : nat) (i : pyval) : outcome nat :=
  match i with
  | VInt z => index_of_int len z
  | VBool b => index_of_int len (if b then 1 else 0)
  | _ => Raise TypeError
  end.

(** [l[i]] *)
Definition getitem {X : Type} (l : list X) (i : pyval) : outcome X :=
  match py_index (length l) i with
  | Ok n => match l !! n with
            | Some x => Ok x
            | None => Raise IndexError
            end
  | Raise e => Raise e
  end.

(** [l[i] = x] *)
Definition setitem {X : Type} (l : list X) (i : pyval) (x : X) : outcome (list X) :=
  match py_index (length l) i with
  | Ok n => Ok (<[n := x]> l)
  | Raise e => Raise e
  end.

(** [l[A], l[B] = l[B], l[A]]: the right-hand side is evaluated first,
    [l[B]] before [l[A]], then the two targets are assigned from left to
    right.  An exception can only come from the right-hand side, so the
    list is either left as it was or both entries are assigned. *)
Definition swap_items {X : Type} (l : list X) (A B : pyval) : outcome (list X) :=
  match getitem l B with
  | Raise e => Raise e
  | Ok x =>
      match getitem l A with
      | Raise e => Raise e
      | Ok y =>
          match setitem l A x with
          | Raise e => Raise e
          | Ok l1 => setitem l1 B y
          end
      end
  end.

(** ** The store *)

Definition vec3 : Type := Q * Q * Q.

Record Atom : Type := mkAtom {
  symbol : string;
  position : vec3;
  tag : Z
}.

(** An [Atoms] object: the ordered atoms, the cell and periodic-boundary
    flags, and the attached calculator, if any. *)
Record Atoms : Type := mkAtoms {
  atoms : list Atom;
  cell : vec3 * vec3 * vec3;
  pbc : bool * bool * bool;
  calc : option nat
}.

(** The object under the key ["forces"] of a calculator's results.
    The calculators of ASE, and the ones [ase.io.read] builds from a
    file, keep a numpy array there, with one row of three numbers per
    atom.  A plain Python list of vectors is the other container the
    code meets: it is what [f = []] makes when there is no
    calculator. *)
Inductive forces_value : Type :=
  | ListForces (l : list vec3)
  | ArrayForces (rows : list vec3).

(** A calculator: the two entries of its [results] dictionary the code
    and the spec speak of, and its [atoms] back-reference.  An absent
    ["forces"] entry is a [KeyError] on [results["forces"]]. *)
Record Calculator : Type := mkCalculator {
  results_forces : option forces_value;
  results_energy : option Q;
  calc_atoms : option nat
}.

(** What a structure file holds: the structure and, when results were
    saved with it, forces (one row per atom) and energy. *)
Record stored : Type := mkStored {
  stored_atoms : list Atom;
  stored_cell : vec3 * vec3 * vec3;
  stored_pbc : bool * bool * bool;
  stored_results : option (option (list vec3) * option Q)
}.

Inductive event : Type :=
  | EvRead (name : string)
  | EvOpen (name : string)
  | EvWrite (image : Atoms)
  | EvClose
  | EvPrintAssessing (k : Z).

(** The store: the [Atoms] objects and the calculators, the structure
    files the reader finds, and the trace of what was read, written
    and printed.  [files] is what [ase.io.read] is given to read; the
    trajectory file that [check_interpolation] writes is not entered
    there: what the writer does is recorded in the trace. *)
Record world : Type := mkWorld {
  structures : list Atoms;
  calculators : list Calculator;
  files : gmap string stored;
  trace : list event
}.

(** ** The force array

    What numpy does with [array == list] when the two cannot be
    broadcast against each other, as is the case of an array of rows of
    three numbers and the empty list: up to version 1.24 the comparison
    gives [False] (and a warning), from version 1.25 on it raises
    [ValueError]. *)
Inductive numpy_version : Type :=
  | NumpyLegacy
  | NumpyStrict.

(** [f == []] *)
Definition eq_empty_list (numpy : numpy_version) (f : forces_value) : outcome bool :=
  match f with
  | ListForces [] => Ok true
  | ListForces (_ :: _) => Ok false
  | ArrayForces _ =>
      match numpy with
      | NumpyLegacy => Ok false
      | NumpyStrict => Raise ValueError
      end
  end.

(** The row an integer subscript of an array denotes: as for a list,
    negative integers count from the end and anything outside
    [-len, len) is an [IndexError].  Only integer subscripts are
    modelled.  [switch_indices] subscripts the list [t] with the same
    values first, which ends the call for every value that is neither an
    [int] nor a [bool]; a [bool] is a mask for numpy, not a position,
    and what an array does with it is outside this model. *)
Definition array_index (len : nat) (i : pyval) : outcome nat :=
  match i with
  | VInt z => index_of_int len z
  | _ => Raise (ExternalError "numpy subscript")
  end.

(** [f[A], f[B] = f[B], f[A]] on an array.  The right-hand side is
    evaluated first and is a pair of views of the rows [B] and [A]: no
    row is copied.  The first assignment then copies row [B] into row
    [A]; the second copies into row [B] what the view of row [A] shows
    at that moment, which is no longer the old row [A]. *)
Definition array_swap_items (rows : list vec3) (A B : pyval) : outcome (list vec3) :=
  match array_index (length rows) B with
  | Raise e => Raise e
  | Ok ib =>
      match array_index (length rows) A with
      | Raise e => Raise e
      | Ok ia =>
          let rows1 := match rows !! ib with
                       | Some x => <[ia := x]> rows
                       | None => rows
                       end in
          let rows2 := match rows1 !! ia with
                       | Some y => <[ib := y]> rows1
                       | None => rows1
                       end in
          Ok rows2
      end
  end.

(** [f[A], f[B] = f[B], f[A]], on either container. *)
Definition swap_forces (f : forces_value) (A B : pyval) : outcome forces_value :=
  match f with
  | ListForces l =>
      match swap_items l A B with
      | Ok l' => Ok (ListForces l')
      | Raise e => Raise e
      end
  | ArrayForces rows =>
      match array_swap_items rows A B with
      | Ok rows' => Ok (ArrayForces rows')
      | Raise e => Raise e
      end
  end.

(** ** Computations on the store that may raise *)

Definition M (A : Type) : Type := world -> outcome A * world.

Definition ret {A : Type} (a : A) : M A := fun w => (Ok a, w).

Definition raise {A : Type} (e : exn) : M A := fun w => (Raise e, w).

Definition bind {A B : Type} (m : M A) (k : A -> M B) : M B :=
  fun w =>
    match m w with
    | (Ok a, w') => k a w'
    | (Raise e, w') => (Raise e, w')
    end.

Definition lift {A : Type} (o : outcome A) : M A := fun w => (o, w).

Notation "'let!' x ':=' m 'in' k" := (bind m (fun x => k))
  (at level 10, x name, m at level 100, k at level 200).

Definition emit (e : event) : M unit :=
  fun w => (Ok tt, mkWorld (structures w) (calculators w) (files w) (trace w ++ [e])).

(** A new [Atoms] object; its reference is the next free position. *)
Definition alloc_atoms (a : Atoms) : M nat :=
  fun w => (Ok (length (structures w)),
            mkWorld (structures w ++ [a]) (calculators w) (files w) (trace w)).

Definition alloc_calc (c : Calculator) : M nat :=
  fun w => (Ok (length (calculators w)),
            mkWorld (structures w) (calculators w ++ [c]) (files w) (trace w)).

(** Dereference a value that must be an [Atoms] object.  A reference
    outside the store does not arise from the functions below. *)
Definition get_atoms (model : pyval) : M Atoms :=
  fun w =>
    match model with
    | VAtoms id => match structures w !! id with
                   | Some a => (Ok a, w)
                   | None => (Raise AttributeError, w)
                   end
    | VStr _ | VTuple _ => (Raise AttributeError, w)
    | _ => (Raise TypeError, w)
    end.

Definition get_calc (c : nat) : M Calculator :=
  fun w =>
    match calculators w !! c with
    | Some pc => (Ok pc, w)
    | None => (Raise AttributeError, w)
    end.

Definition update_atoms (id : nat) (f : Atoms -> Atoms) : M unit :=
  fun w => (Ok tt, mkWorld (alter f id (structures w)) (calculators w) (files w) (trace w)).

Definition update_calc (c : nat) (f : Calculator -> Calculator) : M unit :=
  fun w => (Ok tt, mkWorld (structures w) (alter f c (calculators w)) (files w) (trace w)).

(** ** External collaborators of ASE used by [neb.py] *)

(** [ase.io.read]: a new [Atoms] object for the named file, with a
    calculator holding the saved results when the file has them, the
    forces as an array. *)
Definition read (name : string) : M pyval :=
  let! _ := emit (EvRead name) in
  fun w =>
    match files w !! name with
    | None => (Raise FileNotFoundError, w)
    | Some s =>
        (let! id := alloc_atoms (mkAtoms (stored_atoms s) (stored_cell s) (stored_pbc s) None) in
         match stored_results s with
         | None => ret (VAtoms id)
         | Some (f, e) =>
             let! c := alloc_calc (mkCalculator (ArrayForces <$> f) e (Some id)) in
             let! _ := update_atoms id (fun a => mkAtoms (atoms a) (cell a) (pbc a) (Some c)) in
             ret (VAtoms id)
         end) w
    end.

(** [model[t]] for a list of positions [t]: a new [Atoms] object with the
    atoms picked in the order of [t], the same cell and flags, and no
    calculator. *)
Definition getitem_list (m : Atoms) (t : list nat) : M nat :=
  match mapM (fun i => atoms m !! i) t with
  | Some picked => alloc_atoms (mkAtoms picked (cell m) (pbc m) None)
  | None => raise IndexError
  end.

(** [atoms.set_calculator(calc)] *)
Definition set_calculator (id : nat) (c : nat) : M unit :=
  update_atoms id (fun a => mkAtoms (atoms a) (cell a) (pbc a) (Some c)).

(** ** [switch_indices] *)

Definition switch_indices (numpy : numpy_version) (model A B : pyval) : M pyval :=
  let! model := (match model with
                 | VStr name => read name
                 | _ => ret model
                 end) in
  if negb (isinstance_int A) && isinstance_int B then raise ValueError
  else
    let! m := get_atoms model in
    let t := seq 0 (length (atoms m)) in
    let! attached :=
      (match calc m with
       | Some c =>
           let! pc := get_calc c in
           match results_forces pc with
           | Some f => ret (Some c, f)
           | None => raise KeyError
           end
       | None => ret (None, ListForces [])
       end) in
    let '(prev_calc, f) := attached in
    let! t := lift (swap_items t A B) in
    let! empty := lift (eq_empty_list numpy f) in
    let! _ :=
      (if empty then ret tt
       else
         let! f' := lift (swap_forces f A B) in
         match prev_calc with
         | Some c =>
             update_calc c (fun pc => mkCalculator (Some f') (results_energy pc)
                                                   (calc_atoms pc))
         | None => ret tt
         end) in
    let! new_model := getitem_list m t in
    let! _ :=
      (match calc m with
       | Some c =>
           let! _ := set_calculator new_model c in
           update_calc c (fun pc => mkCalculator (results_forces pc) (results_energy pc) (Some new_model))
       | None => ret tt
       end) in
    ret (VAtoms new_model).

(** ** [switch_all_indices] *)

(** The integer a value of type [int] (or [bool]) stands for. *)
Definition int_value (x : pyval) : Z :=
  match x with
  | VInt z => z
  | VBool b => if b then 1 else 0
  | _ => 0
  end.

(** [i == v] for an integer [i], as the membership test [i in swapped]
    compares: by value, a float or a bool being equal to the integer of
    the same value. *)
Definition py_eq_int (i : Z) (v : pyval) : bool :=
  match v with
  | VInt z => i =? z
  | VBool b => i =? (if b then 1 else 0)
  | VFloat q => Qeq_bool q (inject_Z i)
  | _ => false
  end.

(** [i in swapped] *)
Definition py_in (i : Z) (swapped : list pyval) : bool :=
  existsb (py_eq_int i) swapped.

Section Reindex.

Variable numpy : numpy_version.

(** Object identity of two [int] objects, [x is y], is not fixed by
    the language: equal small integers are one object in CPython,
    equal large ones may or may not be.  It is a parameter. *)
Variable int_is : Z -> Z -> bool.

(** [v is not i], for [i] produced by [range]: only an [int] object
    can be the object [i]. *)
Definition is_not (v : pyval) (i : Z) : bool :=
  match v with
  | VInt z => negb (int_is z i)
  | _ => true
  end.

(** The body of the [for i in range(len(new_indices))] loop, over the
    positions still to visit.  [new_indices[i]] is in range for every
    [i] the loop visits. *)
Fixpoint switch_all_loop (new_indices : list pyval) (positions : list nat)
         (model : pyval) (swapped : list pyval) : M pyval :=
  match positions with
  | [] => ret model
  | i :: rest =>
      match new_indices !! i with
      | None => raise IndexError
      | Some v =>
          if is_not v (Z.of_nat i) && negb (py_in (Z.of_nat i) swapped) then
            let! model' := switch_indices numpy model (VInt (Z.of_nat i)) v in
            switch_all_loop new_indices rest model' (swapped ++ [v])
          else switch_all_loop new_indices rest model swapped
      end
  end.

Definition switch_all_indices (model : pyval) (new_indices : list pyval) : M pyval :=
  let! model := (match model with
                 | VStr name => read name
                 | _ => ret model
                 end) in
  switch_all_loop new_indices (seq 0 (length new_indices)) model [].

End Reindex.

(** CPython's small-integer cache: the integers of [-5, 256] are
    single objects, larger equal integers made independently are not. *)
Definition small_int_is (a b : Z) : bool :=
  (a =? b) && (-5 <=? a) && (a <=? 256).

(** ** [check_interpolation] *)

Section Interpolation.

(** [software.analyse.bonds.search_abnormal_bonds(image, verbose)]:
    [true] when the geometry passes every distance check.  It is not
    part of this module; like any call, it may raise. *)
Variable search_abnormal_bonds : Atoms -> bool -> outcome bool.

(** [NEB(images, climb=True).interpolate(method)]: from the images as
    they are handed over, the geometries of the interior images, in
    order.  The end points are not touched. *)
Variable neb_interpolate : string -> list Atoms -> outcome (list (list Atom)).

(** [initial.copy()]: a new object with the same atoms, cell and
    flags, and no calculator. *)
Definition copy_atoms (model : pyval) : M pyval :=
  fun w =>
    match model with
    | VAtoms id =>
        match structures w !! id with
        | Some a => (let! c := alloc_atoms (mkAtoms (atoms a) (cell a) (pbc a) None) in
                     ret (VAtoms c)) w
        | None => (Raise AttributeError, w)
        end
    | _ => (Raise AttributeError, w)
    end.

(** [[initial.copy() for i in range(k)]] *)
Fixpoint copies (model : pyval) (k : nat) : M (list pyval) :=
  match k with
  | O => ret []
  | S k' =>
      let! c := copy_atoms model in
      let! cs := copies model k' in
      ret (c :: cs)
  end.

(** The objects behind a list of images, as NEB reads them. *)
Fixpoint deref_images (images : list pyval) : M (list Atoms) :=
  match images with
  | [] => ret []
  | VAtoms id :: rest =>
      fun w =>
        match structures w !! id with
        | Some a => (let! r := deref_images rest in ret (a :: r)) w
        | None => (Raise (ExternalError "NEB"), w)
        end
  | _ :: _ => raise (ExternalError "NEB")
  end.

(** Give each interior image its interpolated geometry. *)
Fixpoint set_interior (interior : list pyval) (geometries : list (list Atom)) : M unit :=
  match interior, geometries with
  | VAtoms id :: rest, g :: gs =>
      let! _ := update_atoms id (fun a => mkAtoms g (cell a) (pbc a) (calc a)) in
      set_interior rest gs
  | _, _ => ret tt
  end.

(** Lines 134 to 139: the band of images and its interpolation. *)
Definition build_images (initial final : pyval) (n_max : Z) (interpolation : string)
  : M (list pyval) :=
  let! middle := copies initial (Z.to_nat (n_max - 2)) in
  let images := [initial] ++ middle ++ [final] in
  let! band := deref_images images in
  let! geometries := lift (neb_interpolate interpolation band) in
  let! _ := set_interior middle geometries in
  ret images.

(** The body of the [for i in range(0, n_max)] loop, over the
    positions still to visit. *)
Fixpoint assess_loop (images : list pyval) (verbose save : bool)
         (positions : list nat) (flag : bool) : M bool :=
  match positions with
  | [] => ret flag
  | i :: rest =>
      let! _ := (if verbose then emit (EvPrintAssessing (Z.of_nat i + 1)) else ret tt) in
      let! image := (match images !! i with
                     | Some v => get_atoms v
                     | None => raise IndexError
                     end) in
      let! updated_flag := lift (search_abnormal_bonds image verbose) in
      let! _ := (if save then emit (EvWrite image) else ret tt) in
      assess_loop images verbose save rest (if negb updated_flag then updated_flag else flag)
  end.

Definition check_interpolation (initial final n_max : pyval) (interpolation : string)
           (verbose save : bool) : M pyval :=
  let! initial := (match initial with
                   | VStr name => read name
                   | _ => ret initial
                   end) in
  let! final := (match final with
                 | VStr name => read name
                 | _ => ret final
                 end) in
  if negb (isinstance_int n_max) then raise ValueError
  else
    let! images := build_images initial final (int_value n_max) interpolation in
    let! _ := (if save then emit (EvOpen "interpolation.traj") else ret tt) in
    let! flag := assess_loop images verbose save (seq 0 (Z.to_nat (int_value n_max))) true in
    let! _ := (if save then emit EvClose else ret tt) in
    ret (VBool flag).

End Interpolation.

(** ** [vib_analysis] ([carmm/analyse/vibrations.py]) *)

(** The calls made to the plotting library. *)
Inductive plot_event : Type :=
  | PlotCurve (x : list nat) (y : list Q)
  | PlotXLabel (label : string)
  | PlotYLabel (label : string)
  | PlotShow.

Section Vibrations.

(** [ase.io.read(model)]: the image the reader returns for the file. *)
Variable read_image : string -> outcome Atoms.

(** [Trajectory(model)]: the images of the file, in order. *)
Variable open_trajectory : string -> outcome (list Atoms).

(** [float(atoms.get_distances(i, j))] *)
Variable get_distance : Atoms -> nat -> nat -> outcome Q.

(** [for atoms in traj: distances.append(float(atoms.get_distances(i, j)))] *)
Fixpoint collect_distances (traj : list Atoms) (i j : nat) (distances : list Q)
  : outcome (list Q) :=
  match traj with
  | [] => Ok distances
  | image :: rest =>
      match get_distance image i j with
      | Ok dist => collect_distances rest i j (distances ++ [dist])
      | Raise e => Raise e
      end
  end.

(** The loop [for j in range(i + 1, len(atot))], over the values of [j]
    still to visit; [plots] are the plotting calls made so far. *)
Fixpoint pair_loop (traj : list Atoms) (i : nat) (js : list nat) (plots : list plot_event)
  : outcome unit * list plot_event :=
  match js with
  | [] => (Ok tt, plots)
  | j :: rest =>
      match collect_distances traj i j [] with
      | Raise e => (Raise e, plots)
      | Ok dist_list =>
          pair_loop traj i rest
                    (plots ++ [PlotCurve (seq 0 (length dist_list)) dist_list;
                               PlotXLabel "step"; PlotYLabel "displacement"])
      end
  end.

(** The loop [for i in range(len(atot) - 1)]. *)
Fixpoint atom_loop (traj : list Atoms) (n : nat) (positions : list nat)
         (plots : list plot_event) : outcome unit * list plot_event :=
  match positions with
  | [] => (Ok tt, plots)
  | i :: rest =>
      match pair_loop traj i (seq (i + 1) (n - (i + 1))) plots with
      | (Ok _, plots') => atom_loop traj n rest plots'
      | (Raise e, plots') => (Raise e, plots')
      end
  end.

Definition vib_analysis (model : string) : outcome unit * list plot_event :=
  match read_image model with
  | Raise e => (Raise e, [])
  | Ok image =>
      let atot := symbol <$> atoms image in
      match open_trajectory model with
      | Raise e => (Raise e, [])
      | Ok traj =>
          match atom_loop traj (length atot) (seq 0 (length atot - 1)) [] with
          | (Ok _, plots) => (Ok tt, plots ++ [PlotShow])
          | (Raise e, plots) => (Raise e, plots)
          end
      end
  end.

End Vibrations.

(** The curves among the plotting calls, in the order they were drawn. *)
Definition curves (plots : list plot_event) : list (list nat * list Q) :=
  omap (fun e => match e with
                 | PlotCurve x y => Some (x, y)
                 | _ => None
                 end) plots.

(** The pairs of atoms [i < j < n], in the order the two loops visit
    them. *)
Definition atom_pairs (n : nat) : list (nat * nat) :=
  i ← seq 0 (n - 1); (fun j => (i, j)) <$> seq (i + 1) (n - (i + 1)).

(** ** Notions the properties are stated with *)

(** A caller that swaps repeatedly, each time on the structure the
    previous swap returned: [model = switch_indices(model, A, B)]. *)
Fixpoint switch_many (numpy : numpy_version) (model : pyval)
         (swaps : list (pyval * pyval)) : M pyval :=
  match swaps with
  | [] => ret model
  | (A, B) :: rest =>
      let! model' := switch_indices numpy model A B in
      switch_many numpy model' rest
  end.

(** The list with the entries at positions [ia] and [ib] exchanged. *)
Definition swap_pos {X : Type} (l : list X) (ia ib : nat) : list X :=
  match l !! ia, l !! ib with
  | Some y, Some x => <[ib := y]> (<[ia := x]> l)
  | _, _ => l
  end.

(** The list with the entry at position [ia] replaced by the one at
    position [ib]. *)
Definition overwrite_row {X : Type} (l : list X) (ia ib : nat) : list X :=
  match l !! ib with
  | Some x => <[ia := x]> l
  | None => l
  end.

(** What the assignment [f[A], f[B] = f[B], f[A]] leaves in the
    container [f] for the positions [ia] and [ib]: a list has the two
    entries exchanged, an array has row [ia] overwritten with row
    [ib]. *)
Definition reorder_forces (ia ib : nat) (f : forces_value) : forces_value :=
  match f with
  | ListForces l => ListForces (swap_pos l ia ib)
  | ArrayForces rows => ArrayForces (overwrite_row rows ia ib)
  end.

(** The number of entries (rows) of a force container. *)
Definition forces_size (f : forces_value) : nat :=
  match f with
  | ListForces l => length l
  | ArrayForces rows => length rows
  end.

(** The loop of [switch_all_indices] as it acts on a plain list [l]:
    the same tests, with the swap of the positions [i] and
    [new_indices[i]] carried out on [l]. *)
Fixpoint greedy_reorder {X : Type} (int_is : Z -> Z -> bool) (new_indices : list pyval)
         (positions : list nat) (l : list X) (swapped : list pyval) : list X :=
  match positions with
  | [] => l
  | i :: rest =>
      match new_indices !! i with
      | None => l
      | Some v =>
          if is_not int_is v (Z.of_nat i) && negb (py_in (Z.of_nat i) swapped) then
            greedy_reorder int_is new_indices rest
                           (swap_pos l i (Z.to_nat (int_value v))) (swapped ++ [v])
          else greedy_reorder int_is new_indices rest l swapped
      end
  end.

(** The same loop as it acts on a force container. *)
Fixpoint greedy_forces (int_is : Z -> Z -> bool) (new_indices : list pyval)
         (positions : list nat) (f : forces_value) (swapped : list pyval) : forces_value :=
  match positions with
  | [] => f
  | i :: rest =>
      match new_indices !! i with
      | None => f
      | Some v =>
          if is_not int_is v (Z.of_nat i) && negb (py_in (Z.of_nat i) swapped) then
            greedy_forces int_is new_indices rest
                          (reorder_forces i (Z.to_nat (int_value v)) f) (swapped ++ [v])
          else greedy_forces int_is new_indices rest f swapped
      end
  end.

(** A list of positions as the list of integers handed to
    [switch_all_indices]. *)
Definition targets (p : list nat) : list pyval :=
  (fun j => VInt (Z.of_nat j)) <$> p.

(** The transposition of two positions. *)
Definition transp (ia ib k : nat) : nat :=
  if decide (k = ib) then ia else if decide (k = ia) then ib else k.

(** The calculator of [m], when there is one, is in the store and
    holds forces, in a list or an array, that are the empty list or
    have one entry per atom. *)
Definition forces_fit (w : world) (m : Atoms) : Prop :=
  ∀ c, calc m = Some c →
    ∃ pc f, calculators w !! c = Some pc ∧ results_forces pc = Some f ∧
            (f = ListForces [] ∨ forces_size f = length (atoms m)).

(** The comparison [f == []] of [switch_indices] gives an answer for
    the forces of [m]: they are not an array, or numpy is a version
    that answers [False]. *)
Definition comparable (numpy : numpy_version) (w : world) (m : Atoms) : Prop :=
  ∀ c pc rows, calc m = Some c → calculators w !! c = Some pc →
    results_forces pc = Some (ArrayForces rows) → numpy = NumpyLegacy.


(** The store after a successful swap on the object [m] with positions
    [ia] and [ib]. *)
Definition swapped_world (w : world) (m : Atoms) (ia ib : nat) : world :=
  let new_model := length (structures w) in
  mkWorld
    (structures w ++ [mkAtoms (swap_pos (atoms m) ia ib) (cell m) (pbc m) (calc m)])
    (match calc m with
     | Some c =>
         alter (fun pc => mkCalculator (reorder_forces ia ib <$> results_forces pc)
                                       (results_energy pc) (Some new_model))
               c (calculators w)
     | None => calculators w
     end)
    (files w) (trace w).

(** The events of the trajectory writer in a trace. *)
Definition is_writer_event (e : event) : bool :=
  match e with
  | EvOpen _ | EvWrite _ | EvClose => true
  | _ => false
  end.

Definition writer_events (tr : list event) : list event :=
  filter (fun e => is_writer_event e = true) tr.

(** The other events of a trace: reads and printed lines. *)
Definition print_events (tr : list event) : list event :=
  filter (fun e => is_writer_event e = false) tr.

(** The events of the assessment loop over the images [band], the first
    of which is image number [first + 1]. *)
Fixpoint loop_events (verbose save : bool) (first : nat) (band : list Atoms) : list event :=
  match band with
  | [] => []
  | a :: rest =>
      (if verbose then [EvPrintAssessing (Z.of_nat first + 1)] else []) ++
      (if save then [EvWrite a] else []) ++
      loop_events verbose save (S first) rest
  end.

(** The [Atoms] object a value refers to in a store, if it is one. *)
Definition image_of (structs : list Atoms) (v : pyval) : option Atoms :=
  match v with
  | VAtoms id => structs !! id
  | _ => None
  end.

(** The content of [a.copy()]. *)
Definition copy_of (a : Atoms) : Atoms := mkAtoms (atoms a) (cell a) (pbc a) None.

(** The interior images once they have been given their geometries. *)
Fixpoint with_geometries (middle : list Atoms) (geometries : list (list Atom)) : list Atoms :=
  match middle, geometries with
  | a :: rest, g :: gs => mkAtoms g (cell a) (pbc a) (calc a) :: with_geometries rest gs
  | _, _ => middle
  end.

(** The band of images [check_interpolation] assesses: the two end
    points and, between them, [k] copies of the initial Structure with
    the interpolated geometries. *)
Definition band_of (a0 a1 : Atoms) (k : nat) (geometries : list (list Atom)) : list Atoms :=
  [a0] ++ with_geometries (replicate k (copy_of a0)) geometries ++ [a1].

(** The tags of the atoms of an object, in order: which atom sits at
    which position. *)
Definition tags_of (w : world) (id : nat) : option (list Z) :=
  (fun m => tag <$> atoms m) <$> structures w !! id.

(** ** Concrete stores and collaborators used in the examples *)

Definition atom_at (s : string) (t : Z) : Atom :=
  mkAtom s (inject_Z t, 0%Q, 0%Q) t.

Definition force_x (k : Z) : vec3 := (inject_Z k, 0%Q, 0%Q).

Definition no_cell : vec3 * vec3 * vec3 :=
  ((0%Q, 0%Q, 0%Q), (0%Q, 0%Q, 0%Q), (0%Q, 0%Q, 0%Q)).

(** Four atoms, tagged 0 to 3, with a calculator holding one force per
    atom (the force on the atom tagged [k] is [force_x k]), here in a
    Python list, and an energy. *)
Definition formamide : Atoms :=
  mkAtoms [atom_at "H" 0; atom_at "C" 1; atom_at "N" 2; atom_at "O" 3]
          no_cell (false, false, false) (Some 0%nat).

Definition formamide_forces : list vec3 :=
  [force_x 0; force_x 1; force_x 2; force_x 3].

Definition formamide_calc : Calculator :=
  mkCalculator (Some (ListForces formamide_forces)) (Some (7 # 2)%Q) (Some 0%nat).

Definition w4 : world := mkWorld [formamide] [formamide_calc] ∅ [].

(** The same four atoms with the calculator as ASE has it: the forces
    are the rows of a numpy array. *)
Definition formamide_array_calc : Calculator :=
  mkCalculator (Some (ArrayForces formamide_forces)) (Some (7 # 2)%Q) (Some 0%nat).

Definition w4_array : world := mkWorld [formamide] [formamide_array_calc] ∅ [].

(** Two hydrogen atoms that change places between the initial and the
    final Structure: half way, a linear interpolation puts both at the
    same point. *)
Definition h2_initial : Atoms :=
  mkAtoms [atom_at "H" 0; atom_at "H" 2] no_cell (false, false, false) None.

Definition h2_final : Atoms :=
  mkAtoms [atom_at "H" 2; atom_at "H" 0] no_cell (false, false, false) None.

Definition crossing : world := mkWorld [h2_initial; h2_final] [] ∅ [].

Definition lerp (p q : vec3) (t : Q) : vec3 :=
  let '(px, py, pz) := p in
  let '(qx, qy, qz) := q in
  (Qred (px + (qx - px) * t), Qred (py + (qy - py) * t), Qred (pz + (qz - pz) * t))%Q.

(** A linear interpolation between the first and the last image. *)
Definition linear_neb (method : string) (band : list Atoms) : outcome (list (list Atom)) :=
  match band, last band with
  | a0 :: _, Some a1 =>
      let k := (length band - 2)%nat in
      Ok ((fun j : nat =>
             zip_with (fun x y => mkAtom (symbol x)
                                         (lerp (position x) (position y)
                                               (Z.of_nat j # Pos.of_nat (S k)))
                                         (tag x))
                      (atoms a0) (atoms a1)) <$> seq 1 k)
  | _, _ => Raise (ExternalError "NEB")
  end.

Definition same_point (p q : vec3) : bool :=
  let '(px, py, pz) := p in
  let '(qx, qy, qz) := q in
  Qeq_bool px qx && Qeq_bool py qy && Qeq_bool pz qz.

Fixpoint overlapping (l : list Atom) : bool :=
  match l with
  | [] => false
  | x :: rest => existsb (fun y => same_point (position x) (position y)) rest
                 || overlapping rest
  end.

(** A bond check that flags an image in which two atoms coincide. *)
Definition overlap_checker (a : Atoms) (verbose : bool) : outcome bool :=
  Ok (negb (overlapping (atoms a))).

(** A bond check that gives up with an exception on such an image. *)
Definition strict_checker (a : Atoms) (verbose : bool) : outcome bool :=
  if overlapping (atoms a) then Raise (ExternalError "search_abnormal_bonds")
  else Ok true.

Definition crossing_geometries : list (list Atom) :=
  Eval vm_compute in
    match linear_neb "linear" [h2_initial; copy_of h2_initial; h2_final] with
    | Ok g => g
    | Raise _ => []
    end.

(** A calculator that has computed nothing yet, attached to the four
    atoms. *)
Definition idle_calc : Calculator := mkCalculator None None None.

Definition w_idle : world := mkWorld [formamide] [idle_calc] ∅ [].

(** A store with no object yet and the two end points saved in files. *)
Definition saved_initial : stored :=
  mkStored (atoms h2_initial) no_cell (false, false, false) None.

Definition saved_final : stored :=
  mkStored (atoms h2_final) no_cell (false, false, false) None.

Definition on_disk : world :=
  mkWorld [] [] (<["final.traj" := saved_final]> {["initial.traj" := saved_initial]}) [].

(** An interpolation that knows the linear method only. *)
Definition linear_only_neb (method : string) (band : list Atoms)
  : outcome (list (list Atom)) :=
  if String.eqb method "linear" then linear_neb method band
  else Raise (ExternalError "NEB").

(** The distance of two atoms along the first axis, for images whose
    atoms lie on it. *)
Definition x_distance (a : Atoms) (i j : nat) : outcome Q :=
  match atoms a !! i, atoms a !! j with
  | Some p, Some q =>
      let d := ((position p).1.1 - (position q).1.1)%Q in
      Ok (Qred (if Qle_bool 0 d then d else (- d)%Q))
  | _, _ => Raise IndexError
  end.

Definition x_distance_or_zero (a : Atoms) (i j : nat) : Q :=
  match x_distance a i j with
  | Ok d => d
  | Raise _ => 0%Q
  end.

Definition lone_hydrogen : Atoms :=
  mkAtoms [atom_at "H" 0] no_cell (false, false, false) None.

(** * Properties *)

(** ** Exchanging two entries of a list *)

Section ListSwap.
Context {X : Type}.
Implicit Types l : list X.

Lemma length_swap_pos l ia ib : length (swap_pos l ia ib) = length l.
Proof.
  unfold swap_pos. destruct (l !! ia), (l !! ib); trivial.
  by rewrite !length_insert.
Qed.

Lemma swap_pos_out_of_range l ia ib :
  (length l ≤ ia)%nat ∨ (length l ≤ ib)%nat → swap_pos l ia ib = l.
Proof.
  intros H. unfold swap_pos.
  destruct (l !! ia) eqn:Ea; [|done].
  destruct (l !! ib) eqn:Eb; [|done].
  apply lookup_lt_Some in Ea, Eb. lia.
Qed.

Lemma lookup_swap_pos l ia ib k :
  (ia < length l)%nat → (ib < length l)%nat →
  swap_pos l ia ib !! k = l !! transp ia ib k.
Proof.
  intros Ha Hb. unfold swap_pos, transp.
  destruct (lookup_lt_is_Some_2 l ia Ha) as [y Ey].
  destruct (lookup_lt_is_Some_2 l ib Hb) as [x Ex].
  rewrite Ey, Ex, !list_lookup_insert, !length_insert.
  repeat case_decide; subst; try done; try lia; naive_solver.
Qed.

Lemma swap_pos_self l i : swap_pos l i i = l.
Proof.
  destruct (decide (i < length l)%nat) as [Hi|Hi].
  - apply list_eq. intros k. rewrite lookup_swap_pos by done.
    unfold transp. by repeat case_decide; subst.
  - apply swap_pos_out_of_range. lia.
Qed.

Lemma transp_involutive ia ib k : transp ia ib (transp ia ib k) = k.
Proof. unfold transp. repeat case_decide; subst; congruence. Qed.

Lemma transp_inj ia ib : Inj (=) (=) (transp ia ib).
Proof.
  intros j k H. rewrite <- (transp_involutive ia ib j), H.
  apply transp_involutive.
Qed.

Lemma swap_pos_Permutation l ia ib : swap_pos l ia ib ≡ₚ l.
Proof.
  destruct (decide (ia < length l ∧ ib < length l)%nat) as [[Ha Hb]|Hn].
  - apply Permutation_inj. split; [apply length_swap_pos|].
    exists (transp ia ib). split; [apply transp_inj|].
    intros k. by apply lookup_swap_pos.
  - rewrite swap_pos_out_of_range; [done|lia].
Qed.

Lemma swap_pos_twice l ia ib : swap_pos (swap_pos l ia ib) ia ib = l.
Proof.
  destruct (decide (ia < length l ∧ ib < length l)%nat) as [[Ha Hb]|Hn].
  - apply list_eq. intros k.
    rewrite !lookup_swap_pos by (by rewrite ?length_swap_pos).
    by rewrite transp_involutive.
  - rewrite !swap_pos_out_of_range; [done|lia|rewrite swap_pos_out_of_range; lia].
Qed.

End ListSwap.

(** ** Subscripts *)

Lemma index_of_int_lt n z i : index_of_int n z = Ok i → (i < n)%nat.
Proof.
  unfold index_of_int.
  destruct ((0 <=? z) && (z <? Z.of_nat n)) eqn:E1.
  - intros [= <-]. apply andb_true_iff in E1 as [?%Z.leb_le ?%Z.ltb_lt]. lia.
  - destruct ((- Z.of_nat n <=? z) && (z <? 0)) eqn:E2; [|done].
    intros [= <-]. apply andb_true_iff in E2 as [?%Z.leb_le ?%Z.ltb_lt]. lia.
Qed.

Lemma index_of_int_raise n z e : index_of_int n z = Raise e → e = IndexError.
Proof.
  unfold index_of_int.
  destruct ((0 <=? z) && (z <? Z.of_nat n)); [done|].
  destruct ((- Z.of_nat n <=? z) && (z <? 0)); [done|]. by intros [= <-].
Qed.

Lemma py_index_lt n A i : py_index n A = Ok i → (i < n)%nat.
Proof. destruct A; simpl; try done; apply index_of_int_lt. Qed.

Lemma swap_items_ok {X : Type} (l : list X) A B ia ib :
  py_index (length l) A = Ok ia → py_index (length l) B = Ok ib →
  swap_items l A B = Ok (swap_pos l ia ib).
Proof.
  intros HA HB. unfold swap_items, getitem, setitem, swap_pos.
  rewrite HA, HB.
  destruct (lookup_lt_is_Some_2 l ia (py_index_lt _ _ _ HA)) as [y ->].
  destruct (lookup_lt_is_Some_2 l ib (py_index_lt _ _ _ HB)) as [x ->].
  by rewrite length_insert, HB.
Qed.


(** [model[t]] after the swap on [t] is the atom list with the two
    entries exchanged. *)
Lemma mapM_lookup_swap_seq {X : Type} (l : list X) ia ib :
  (ia < length l)%nat → (ib < length l)%nat →
  mapM (fun i => l !! i) (swap_pos (seq 0 (length l)) ia ib) = Some (swap_pos l ia ib).
Proof.
  intros Ha Hb. apply mapM_Some, Forall2_same_length_lookup_2.
  - by rewrite !length_swap_pos, length_seq.
  - intros k i x Hi Hx.
    rewrite lookup_swap_pos in Hi by (by rewrite length_seq).
    rewrite lookup_swap_pos in Hx by done.
    apply lookup_seq in Hi as [-> _]. done.
Qed.

(** ** Rows of an array *)

Section Rows.
Context {X : Type}.
Implicit Types l : list X.

Lemma length_overwrite_row l ia ib : length (overwrite_row l ia ib) = length l.
Proof.
  unfold overwrite_row. destruct (l !! ib); [|done]. by rewrite length_insert.
Qed.

Lemma overwrite_row_self l i : overwrite_row l i i = l.
Proof.
  unfold overwrite_row. destruct (l !! i) eqn:E; [|done]. by apply list_insert_id.
Qed.

Lemma lookup_overwrite_row l ia ib k :
  (ia < length l)%nat → (ib < length l)%nat →
  overwrite_row l ia ib !! k = l !! (if decide (k = ia) then ib else k).
Proof.
  intros Ha Hb. unfold overwrite_row.
  destruct (lookup_lt_is_Some_2 l ib Hb) as [x Ex]. rewrite Ex.
  rewrite list_lookup_insert.
  repeat case_decide; subst; try done; try lia; naive_solver.
Qed.

Lemma overwrite_row_twice l ia ib :
  overwrite_row (overwrite_row l ia ib) ia ib = overwrite_row l ia ib.
Proof.
  unfold overwrite_row at 2. destruct (l !! ib) as [x|] eqn:Ex.
  - assert (<[ia:=x]> l !! ib = Some x) as Hx.
    { rewrite list_lookup_insert. by case_decide. }
    unfold overwrite_row. rewrite Hx, Ex. apply list_insert_insert_eq.
  - unfold overwrite_row. by rewrite Ex.
Qed.

(** An array row overwritten is the exchange of two rows only when
    the two rows were equal. *)
Lemma overwrite_row_not_swap l ia ib :
  (ia < length l)%nat → (ib < length l)%nat →
  l !! ia ≠ l !! ib → overwrite_row l ia ib ≠ swap_pos l ia ib.
Proof.
  intros Ha Hb Hne Heq.
  apply (f_equal (fun l' => l' !! ib)) in Heq.
  rewrite lookup_overwrite_row, lookup_swap_pos in Heq by done.
  unfold transp in Heq. repeat case_decide; subst; try done; congruence.
Qed.

End Rows.

Lemma array_swap_items_ok rows a b ia ib :
  index_of_int (length rows) a = Ok ia →
  index_of_int (length rows) b = Ok ib →
  array_swap_items rows (VInt a) (VInt b) = Ok (overwrite_row rows ia ib).
Proof.
  intros HA HB. unfold array_swap_items, overwrite_row. simpl. rewrite HB, HA.
  pose proof (index_of_int_lt _ _ _ HA) as Hia.
  destruct (lookup_lt_is_Some_2 rows ib (index_of_int_lt _ _ _ HB)) as [x Ex].
  rewrite Ex.
  assert (<[ia:=x]> rows !! ia = Some x) as ->.
  { rewrite list_lookup_insert. by rewrite decide_True. }
  f_equal. apply list_insert_id.
  rewrite list_lookup_insert.
  case_decide; [done|]. done.
Qed.


Lemma swap_forces_ok f a b ia ib :
  index_of_int (forces_size f) a = Ok ia →
  index_of_int (forces_size f) b = Ok ib →
  swap_forces f (VInt a) (VInt b) = Ok (reorder_forces ia ib f).
Proof.
  intros HA HB. destruct f as [l|rows]; simpl in *.
  - by rewrite (swap_items_ok l (VInt a) (VInt b) ia ib).
  - by rewrite (array_swap_items_ok rows a b ia ib).
Qed.

(** ** One swap *)

Lemma valid_index_to_nat n a :
  0 ≤ a < Z.of_nat n → index_of_int n a = Ok (Z.to_nat a).
Proof.
  intros [H0 Hn]. unfold index_of_int.
  apply Z.leb_le in H0. apply Z.ltb_lt in Hn. by rewrite H0, Hn.
Qed.

Lemma comparable_legacy w m : comparable NumpyLegacy w m.
Proof. by intros c pc rows _ _ _. Qed.

(** A swap that goes through: the subscripts denote positions, the
    forces fit the atoms and the comparison [f == []] gives an
    answer. *)
Lemma switch_indices_ok numpy w id m a b ia ib :
  structures w !! id = Some m →
  forces_fit w m →
  comparable numpy w m →
  index_of_int (length (atoms m)) a = Ok ia →
  index_of_int (length (atoms m)) b = Ok ib →
  switch_indices numpy (VAtoms id) (VInt a) (VInt b) w
  = (Ok (VAtoms (length (structures w))), swapped_world w m ia ib).
Proof.
  intros Hm Hfit Hcmp HA HB.
  pose proof (index_of_int_lt _ _ _ HA) as Hia.
  pose proof (index_of_int_lt _ _ _ HB) as Hib.
  unfold switch_indices, bind, ret, get_atoms. simpl. rewrite Hm.
  unfold swapped_world.
  destruct (calc m) as [c|] eqn:Hc.
  - destruct (Hfit c Hc) as (pc & f & Hpc & Hf & Hlen).
    unfold get_calc. rewrite Hpc, Hf. unfold lift.
    rewrite (swap_items_ok (seq 0 (length (atoms m))) (VInt a) (VInt b) ia ib)
      by (by rewrite length_seq).
    unfold getitem_list, raise, alloc_atoms, set_calculator, update_calc, update_atoms.
    assert (eq_empty_list numpy f = Ok true ∧ f = ListForces [] ∨
            eq_empty_list numpy f = Ok false ∧ forces_size f = length (atoms m))
      as [[-> ->]|[-> Hsize]].
    { destruct f as [[|f1 fs]|rows]; simpl.
      - by left.
      - right. split; [done|]. by destruct Hlen.
      - right. rewrite (Hcmp c pc rows Hc Hpc Hf). split; [done|]. by destruct Hlen. }
    + simpl. rewrite mapM_lookup_swap_seq by done. simpl.
      rewrite alter_app_r_alt by done. rewrite Nat.sub_diag. simpl.
      do 2 f_equal. apply list_alter_ext; [|done].
      intros x Hx. rewrite Hpc in Hx. injection Hx as <-. by rewrite Hf.
    + rewrite (swap_forces_ok f a b ia ib) by (by rewrite Hsize).
      simpl. rewrite mapM_lookup_swap_seq by done. simpl.
      rewrite alter_app_r_alt by done. rewrite Nat.sub_diag. simpl.
      do 2 f_equal. rewrite list_alter_alter_eq. apply list_alter_ext; [|done].
      intros x Hx. rewrite Hpc in Hx. injection Hx as <-. simpl. by rewrite Hf.
  - unfold lift.
    rewrite (swap_items_ok (seq 0 (length (atoms m))) (VInt a) (VInt b) ia ib)
      by (by rewrite length_seq).
    unfold getitem_list, raise, alloc_atoms. simpl.
    rewrite mapM_lookup_swap_seq by done. done.
Qed.

(** With an array of forces and a numpy that raises on [f == []], a
    call with two valid indices ends in that [ValueError], after the
    swap on the list of positions and before anything is assigned. *)
Lemma switch_indices_strict_array w id m c pc rows a b :
  structures w !! id = Some m → calc m = Some c →
  calculators w !! c = Some pc → results_forces pc = Some (ArrayForces rows) →
  0 ≤ a < Z.of_nat (length (atoms m)) →
  0 ≤ b < Z.of_nat (length (atoms m)) →
  switch_indices NumpyStrict (VAtoms id) (VInt a) (VInt b) w = (Raise ValueError, w).
Proof.
  intros Hm Hc Hpc Hf Ha Hb.
  unfold switch_indices, bind, ret, raise, lift, get_atoms, get_calc. simpl.
  rewrite Hm, Hc, Hpc, Hf.
  rewrite (swap_items_ok (seq 0 (length (atoms m))) (VInt a) (VInt b)
             (Z.to_nat a) (Z.to_nat b))
    by (rewrite length_seq; by apply valid_index_to_nat).
  done.
Qed.

Lemma forces_fit_array w m c pc rows :
  calc m = Some c → calculators w !! c = Some pc →
  results_forces pc = Some (ArrayForces rows) → length rows = length (atoms m) →
  forces_fit w m.
Proof.
  intros Hc Hpc Hf Hlen c' Hc'. assert (c' = c) as -> by congruence.
  exists pc, (ArrayForces rows). repeat split; try done. by right.
Qed.



(** ** C1: index alignment after a swap *)

(** C1.  What the code does with the forces of a calculator, a numpy
    array with one row per atom, on one swap of two valid positions [a]
    and [b] whose forces differ.  With a numpy that raises on [f == []]
    the swap ends in [ValueError] and no Structure is returned.  With a
    numpy that answers [False] the swap returns a Structure in which the
    atom of position [a] now sits at position [b], while row [b] of the
    forces is still the force of the atom that was at [b]: the array
    has [N] rows, but entry [b] does not belong to the atom at position
    [b]. *)
Theorem switch_many_breaks_alignment w id m c pc rows a b :
  structures w !! id = Some m → calc m = Some c →
  calculators w !! c = Some pc → results_forces pc = Some (ArrayForces rows) →
  length rows = length (atoms m) →
  0 ≤ a < Z.of_nat (length (atoms m)) →
  0 ≤ b < Z.of_nat (length (atoms m)) →
  rows !! Z.to_nat a ≠ rows !! Z.to_nat b →
  switch_many NumpyStrict (VAtoms id) [(VInt a, VInt b)] w = (Raise ValueError, w) ∧
  ∃ w' m' pc' rows',
    switch_many NumpyLegacy (VAtoms id) [(VInt a, VInt b)] w
    = (Ok (VAtoms (length (structures w))), w') ∧
    structures w' !! length (structures w) = Some m' ∧ calc m' = Some c ∧
    calculators w' !! c = Some pc' ∧ results_forces pc' = Some (ArrayForces rows') ∧
    length rows' = length (atoms m') ∧
    atoms m' !! Z.to_nat b = atoms m !! Z.to_nat a ∧
    rows' !! Z.to_nat b = rows !! Z.to_nat b ∧
    rows' !! Z.to_nat b ≠ rows !! Z.to_nat a.
Proof.
  intros Hm Hc Hpc Hf Hlen Ha Hb Hne.
  pose proof (valid_index_to_nat _ _ Ha) as HA.
  pose proof (valid_index_to_nat _ _ Hb) as HB.
  pose proof (index_of_int_lt _ _ _ HA) as Hia.
  pose proof (index_of_int_lt _ _ _ HB) as Hib.
  split.
  - simpl. unfold bind.
    by rewrite (switch_indices_strict_array w id m c pc rows a b).
  - eexists _, _, _, _. split.
    { simpl. unfold bind.
      rewrite (switch_indices_ok NumpyLegacy w id m a b (Z.to_nat a) (Z.to_nat b) Hm);
        try done; try apply comparable_legacy.
      by eapply forces_fit_array. }
    unfold swapped_world. simpl. rewrite Hc.
    split; [by apply list_lookup_middle|]. simpl.
    split; [done|].
    split; [by rewrite list_lookup_alter_eq, Hpc|]. simpl.
    rewrite Hf. simpl. split; [done|].
    split; [by rewrite length_overwrite_row, length_swap_pos|].
    split.
    { rewrite lookup_swap_pos by done. unfold transp. by rewrite decide_True. }
    assert (overwrite_row rows (Z.to_nat a) (Z.to_nat b) !! Z.to_nat b
            = rows !! Z.to_nat b) as Hrow.
    { rewrite lookup_overwrite_row by (by rewrite Hlen). by case_decide; subst. }
    split; [done|]. rewrite Hrow. congruence.
Qed.

(** ** C10, C5, C2: what one swap does to the store *)

(** C10.  A self-swap [switch_indices(s, a, a)] with a valid index is
    not accepted for every Structure.  When the calculator of [s] has
    no forces in its results, the call ends in [KeyError]; when the
    forces are an array and numpy raises on [f == []], it ends in
    [ValueError]; in both cases nothing has been changed.  Otherwise
    (no calculator, forces in a list, or a numpy that answers [False])
    the call returns a new Structure with the atoms of [s] in the same
    order and the same calculator, whose forces are what they were. *)
Theorem switch_indices_self_swap numpy w id m a :
  structures w !! id = Some m →
  0 ≤ a < Z.of_nat (length (atoms m)) →
  (∀ c pc, calc m = Some c → calculators w !! c = Some pc →
     results_forces pc = None →
     switch_indices numpy (VAtoms id) (VInt a) (VInt a) w = (Raise KeyError, w)) ∧
  (∀ c pc rows, calc m = Some c → calculators w !! c = Some pc →
     results_forces pc = Some (ArrayForces rows) →
     switch_indices NumpyStrict (VAtoms id) (VInt a) (VInt a) w = (Raise ValueError, w)) ∧
  (forces_fit w m → comparable numpy w m →
   ∃ w' m',
     switch_indices numpy (VAtoms id) (VInt a) (VInt a) w
     = (Ok (VAtoms (length (structures w))), w') ∧
     structures w' !! length (structures w) = Some m' ∧
     atoms m' = atoms m ∧ calc m' = calc m ∧
     ∀ c pc, calc m = Some c → calculators w !! c = Some pc →
       ∃ pc', calculators w' !! c = Some pc' ∧
              results_forces pc' = results_forces pc).
Proof.
  intros Hm Ha.
  pose proof (valid_index_to_nat _ _ Ha) as HA.
  split; [|split].
  - intros c pc Hc Hpc Hf.
    unfold switch_indices, bind, ret, raise, lift, get_atoms, get_calc. simpl.
    by rewrite Hm, Hc, Hpc, Hf.
  - intros c pc rows Hc Hpc Hf. by eapply switch_indices_strict_array.
  - intros Hfit Hcmp.
    eexists _, _. split; [by apply switch_indices_ok|].
    unfold swapped_world. simpl.
    split; [by apply list_lookup_middle|]. simpl.
    split; [apply swap_pos_self|]. split; [done|].
    intros c pc Hc Hpc. rewrite Hc, list_lookup_alter_eq, Hpc. simpl.
    eexists. split; [done|]. simpl.
    destruct (results_forces pc) as [[l|rows]|]; simpl; [| |done].
    + by rewrite swap_pos_self.
    + by rewrite overwrite_row_self.
Qed.

(** C5.  Provider carry-over (I2) for a calculator whose forces are a
    numpy array with one row per atom.  With a numpy that raises on
    [f == []] the swap of two valid positions ends in [ValueError] and
    nothing is returned or changed.  With a numpy that answers [False]
    the Structure returned carries the calculator of the input, the
    calculator's [atoms] back-reference is the returned Structure and
    its energy is the value it had, and the atoms are exchanged; the
    forces are not: row [a] has been overwritten with row [b] and row
    [b] is what it was, which is the exchange only if the two rows were
    equal. *)
Theorem switch_indices_provider_array_forces w id m c pc rows a b :
  structures w !! id = Some m → calc m = Some c →
  calculators w !! c = Some pc → results_forces pc = Some (ArrayForces rows) →
  length rows = length (atoms m) →
  0 ≤ a < Z.of_nat (length (atoms m)) →
  0 ≤ b < Z.of_nat (length (atoms m)) →
  switch_indices NumpyStrict (VAtoms id) (VInt a) (VInt b) w = (Raise ValueError, w) ∧
  ∃ w' m' pc',
    switch_indices NumpyLegacy (VAtoms id) (VInt a) (VInt b) w
    = (Ok (VAtoms (length (structures w))), w') ∧
    structures w' !! length (structures w) = Some m' ∧
    calc m' = Some c ∧
    calculators w' !! c = Some pc' ∧
    calc_atoms pc' = Some (length (structures w)) ∧
    results_energy pc' = results_energy pc ∧
    atoms m' = swap_pos (atoms m) (Z.to_nat a) (Z.to_nat b) ∧
    results_forces pc'
    = Some (ArrayForces (overwrite_row rows (Z.to_nat a) (Z.to_nat b))) ∧
    (rows !! Z.to_nat a ≠ rows !! Z.to_nat b →
     overwrite_row rows (Z.to_nat a) (Z.to_nat b)
     ≠ swap_pos rows (Z.to_nat a) (Z.to_nat b)).
Proof.
  intros Hm Hc Hpc Hf Hlen Ha Hb.
  pose proof (valid_index_to_nat _ _ Ha) as HA.
  pose proof (valid_index_to_nat _ _ Hb) as HB.
  split; [by eapply switch_indices_strict_array|].
  eexists _, _, _. split.
  - apply switch_indices_ok; try done; try apply comparable_legacy.
    by eapply forces_fit_array.
  - unfold swapped_world. simpl. rewrite Hc.
    split; [by apply list_lookup_middle|]. simpl.
    split; [done|].
    split; [by rewrite list_lookup_alter_eq, Hpc|]. simpl.
    rewrite Hf. simpl. repeat (split; [done|]).
    apply overwrite_row_not_swap; rewrite Hlen; by eapply index_of_int_lt.
Qed.


(** ** The band of images *)

Lemma world_eta w : mkWorld (structures w) (calculators w) (files w) (trace w) = w.
Proof. by destruct w. Qed.

Lemma length_with_geometries middle geometries :
  length (with_geometries middle geometries) = length middle.
Proof.
  revert geometries. induction middle as [|a rest IH]; intros [|g gs]; simpl; auto.
Qed.

Section InterpolationProps.

Variable search_abnormal_bonds : Atoms -> bool -> outcome bool.
Variable neb_interpolate : string -> list Atoms -> outcome (list (list Atom)).

Lemma copies_ok i0 a0 k w :
  structures w !! i0 = Some a0 →
  copies (VAtoms i0) k w
  = (Ok (VAtoms <$> seq (length (structures w)) k),
     mkWorld (structures w ++ replicate k (copy_of a0))
             (calculators w) (files w) (trace w)).
Proof.
  revert w. induction k as [|k IH]; intros w H0; simpl.
  - unfold ret. by rewrite app_nil_r, world_eta.
  - unfold bind, copy_atoms. rewrite H0. unfold bind, alloc_atoms, ret.
    rewrite IH by (simpl; rewrite lookup_app_l; eauto using lookup_lt_Some).
    simpl. rewrite length_app, Nat.add_1_r, <- app_assoc. done.
Qed.

Lemma deref_images_ok images band w :
  Forall2 (fun v a => image_of (structures w) v = Some a) images band →
  deref_images images w = (Ok band, w).
Proof.
  induction 1 as [|v a images band Hv _ IH]; [done|].
  destruct v; try done. simpl in *.
  rewrite Hv. unfold bind. by rewrite IH.
Qed.

Lemma set_interior_ok pre middle geometries cs fs tr :
  set_interior (VAtoms <$> seq (length pre) (length middle)) geometries
               (mkWorld (pre ++ middle) cs fs tr)
  = (Ok tt, mkWorld (pre ++ with_geometries middle geometries) cs fs tr).
Proof.
  revert pre geometries.
  induction middle as [|a rest IH]; intros pre [|g gs]; try done.
  simpl. unfold bind, update_atoms. simpl.
  rewrite alter_app_r_alt by done. rewrite Nat.sub_diag. simpl.
  specialize (IH (pre ++ [mkAtoms g (cell a) (pbc a) (calc a)]) gs).
  rewrite length_app, Nat.add_1_r, <- !app_assoc in IH. apply IH.
Qed.

Lemma band_images pre mid i0 i1 a0 a1 :
  pre !! i0 = Some a0 → pre !! i1 = Some a1 →
  Forall2 (fun v a => image_of (pre ++ mid) v = Some a)
          ([VAtoms i0] ++ (VAtoms <$> seq (length pre) (length mid)) ++ [VAtoms i1])
          ([a0] ++ mid ++ [a1]).
Proof.
  intros H0 H1. simpl. apply Forall2_cons. split.
  { simpl. rewrite lookup_app_l; eauto using lookup_lt_Some. }
  apply Forall2_app.
  - apply Forall2_same_length_lookup_2.
    { by rewrite length_fmap, length_seq. }
    intros j v a Hv Ha.
    apply list_lookup_fmap_Some in Hv as (id & -> & Hid).
    apply lookup_seq in Hid as [-> Hj]. simpl.
    rewrite lookup_app_r by lia.
    by replace (length pre + j - length pre)%nat with j by lia.
  - apply Forall2_cons. split; [|done]. simpl.
    rewrite lookup_app_l; eauto using lookup_lt_Some.
Qed.

Lemma build_images_ok w i0 i1 a0 a1 n interpolation geometries :
  structures w !! i0 = Some a0 →
  structures w !! i1 = Some a1 →
  neb_interpolate interpolation
    ([a0] ++ replicate (Z.to_nat (n - 2)) (copy_of a0) ++ [a1]) = Ok geometries →
  build_images neb_interpolate (VAtoms i0) (VAtoms i1) n interpolation w
  = (Ok ([VAtoms i0] ++ (VAtoms <$> seq (length (structures w)) (Z.to_nat (n - 2)))
         ++ [VAtoms i1]),
     mkWorld (structures w
              ++ with_geometries (replicate (Z.to_nat (n - 2)) (copy_of a0)) geometries)
             (calculators w) (files w) (trace w)).
Proof.
  intros H0 H1 Hneb. unfold build_images, bind.
  rewrite (copies_ok i0 a0) by done.
  set (k := Z.to_nat (n - 2)) in *.
  pose proof (band_images (structures w) (replicate k (copy_of a0)) _ _ _ _ H0 H1) as Hband.
  rewrite length_replicate in Hband.
  rewrite (deref_images_ok _ ([a0] ++ replicate k (copy_of a0) ++ [a1])) by done.
  unfold lift. rewrite Hneb.
  pose proof (set_interior_ok (structures w) (replicate k (copy_of a0)) geometries
                              (calculators w) (files w) (trace w)) as Hset.
  rewrite length_replicate in Hset. by rewrite Hset.
Qed.

(** ** The assessment loop *)

Lemma assess_loop_ok images verbose save structs cs fs band :
  ∀ bs s flag tr,
    (∀ j a, band !! j = Some a →
       ∃ v, images !! (s + j)%nat = Some v ∧ image_of structs v = Some a) →
    Forall2 (fun a b => search_abnormal_bonds a verbose = Ok b) band bs →
    assess_loop search_abnormal_bonds images verbose save
                (seq s (length band)) flag (mkWorld structs cs fs tr)
    = (Ok (flag && forallb id bs),
       mkWorld structs cs fs (tr ++ loop_events verbose save s band)).
Proof.
  induction band as [|a rest IH]; intros bs s flag tr Himg Hchk.
  - apply Forall2_nil_inv_l in Hchk as ->. simpl.
    by rewrite andb_true_r, app_nil_r.
  - apply Forall2_cons_inv_l in Hchk as (b & bs' & Hb & Hrest & ->).
    destruct (Himg 0%nat a eq_refl) as (v & Hv & Ha).
    rewrite Nat.add_0_r in Hv.
    assert (∀ tr', get_atoms v (mkWorld structs cs fs tr')
                   = (Ok a, mkWorld structs cs fs tr')) as Hget.
    { intros tr'. destruct v; try done. simpl in *. by rewrite Ha. }
    cbn [length seq assess_loop loop_events]. unfold bind at 1.
    assert (∀ flag' tr',
      assess_loop search_abnormal_bonds images verbose save
                  (seq (S s) (length rest)) flag' (mkWorld structs cs fs tr')
      = (Ok (flag' && forallb id bs'),
         mkWorld structs cs fs (tr' ++ loop_events verbose save (S s) rest))) as Hnext.
    { intros flag' tr'. apply IH; [|done].
      intros j a' Hj. destruct (Himg (S j) a' Hj) as (v' & Hv' & Ha').
      exists v'. split; [|done].
      by replace (S s + j)%nat with (s + S j)%nat by lia. }
    rewrite Hv.
    destruct verbose, save; unfold emit, ret, bind, lift; simpl;
      rewrite Hget, Hb; simpl; rewrite Hnext; simpl;
      rewrite <- ?app_assoc; simpl; by destruct b, flag.
Qed.

Lemma writer_events_loop verbose first band :
  writer_events (loop_events verbose true first band) = EvWrite <$> band.
Proof.
  revert first. induction band as [|a rest IH]; intros first; [done|].
  simpl. unfold writer_events in *. destruct verbose; simpl.
  - rewrite filter_cons_False by done. rewrite filter_cons_True by done.
    by rewrite IH.
  - rewrite filter_cons_True by done. by rewrite IH.
Qed.

(** ** A run on two Structures of the store *)

Section Run.

Variables (w : world) (i0 i1 : nat) (a0 a1 : Atoms) (n : Z).
Variables (interpolation : string) (geometries : list (list Atom)).

Hypothesis Hinitial : structures w !! i0 = Some a0.
Hypothesis Hfinal : structures w !! i1 = Some a1.
Hypothesis Hn : 2 ≤ n.
Hypothesis Hneb :
  neb_interpolate interpolation
    ([a0] ++ replicate (Z.to_nat (n - 2)) (copy_of a0) ++ [a1]) = Ok geometries.

Lemma length_band : length (band_of a0 a1 (Z.to_nat (n - 2)) geometries) = Z.to_nat n.
Proof.
  unfold band_of. simpl.
  rewrite length_app, length_with_geometries, length_replicate. simpl. lia.
Qed.


Variables (verbose save : bool) (bs : list bool).

Hypothesis Hchecks :
  Forall2 (fun a b => search_abnormal_bonds a verbose = Ok b)
          (band_of a0 a1 (Z.to_nat (n - 2)) geometries) bs.

Lemma check_interpolation_run :
  check_interpolation search_abnormal_bonds neb_interpolate
                      (VAtoms i0) (VAtoms i1) (VInt n) interpolation verbose save w
  = (Ok (VBool (forallb id bs)),
     mkWorld
       (structures w
        ++ with_geometries (replicate (Z.to_nat (n - 2)) (copy_of a0)) geometries)
       (calculators w) (files w)
       (trace w ++ (if save then [EvOpen "interpolation.traj"] else [])
                ++ loop_events verbose save 0
                     (band_of a0 a1 (Z.to_nat (n - 2)) geometries)
                ++ (if save then [EvClose] else []))).
Proof.
  match goal with |- _ = ?r => set (result := r) end.
  unfold check_interpolation. unfold bind at 1 2. unfold ret at 1 2. simpl.
  unfold bind at 1. rewrite (build_images_ok _ _ _ _ _ _ _ _ Hinitial Hfinal Hneb).
  pose proof (band_images (structures w)
    (with_geometries (replicate (Z.to_nat (n - 2)) (copy_of a0)) geometries)
    _ _ _ _ Hinitial Hfinal) as Hband.
  rewrite length_with_geometries, length_replicate in Hband.
  rewrite <- length_band.
  assert (∀ tr, assess_loop search_abnormal_bonds
             ([VAtoms i0] ++ (VAtoms <$> seq (length (structures w)) (Z.to_nat (n - 2)))
              ++ [VAtoms i1]) verbose save
             (seq 0 (length (band_of a0 a1 (Z.to_nat (n - 2)) geometries))) true
             (mkWorld (structures w ++ with_geometries
                         (replicate (Z.to_nat (n - 2)) (copy_of a0)) geometries)
                      (calculators w) (files w) tr)
           = (Ok (forallb id bs),
              mkWorld (structures w ++ with_geometries
                         (replicate (Z.to_nat (n - 2)) (copy_of a0)) geometries)
                      (calculators w) (files w)
                      (tr ++ loop_events verbose save 0
                               (band_of a0 a1 (Z.to_nat (n - 2)) geometries)))) as Hloop.
  { intros tr. rewrite (assess_loop_ok _ _ _ _ _ _ _ bs); [done| |done].
    intros j a Ha. eapply Forall2_lookup_r in Hband as (v & Hv & Hva); [|exact Ha].
    eauto. }
  destruct save; unfold bind, emit, ret; cbn [structures calculators files trace];
    rewrite Hloop; cbn [structures calculators files trace]; subst result.
  - by rewrite <- !app_assoc.
  - by rewrite app_nil_r.
Qed.

(** C7.  Aggregate AND: the value returned is the conjunction of the
    per-image results of [search_abnormal_bonds] over all [n_max]
    images; it is true only when every image passes, and one failing
    image makes it false whatever the images after it give. *)
Theorem check_interpolation_aggregate :
  ∃ flag,
    (check_interpolation search_abnormal_bonds neb_interpolate
       (VAtoms i0) (VAtoms i1) (VInt n) interpolation verbose save w).1
    = Ok (VBool flag) ∧
    length bs = Z.to_nat n ∧
    flag = forallb id bs ∧
    (flag = true ↔ Forall (fun b => b = true) bs) ∧
    (∀ before after, bs = before ++ false :: after → flag = false).
Proof.
  exists (forallb id bs). rewrite check_interpolation_run.
  split; [done|].
  split; [by rewrite <- (Forall2_length _ _ _ Hchecks), length_band|].
  split; [done|].
  split.
  - rewrite forallb_forall, Forall_forall.
    split; intros H b Hb; specialize (H b); rewrite ?list_elem_of_In in *; auto.
  - intros before after ->. rewrite forallb_app. simpl. apply andb_false_r.
Qed.

(** C8, as the code has it.  [check_interpolation] returns the
    aggregate boolean and nothing else, whatever the checks give: a
    geometrically invalid path does not raise, it makes the value
    returned false. *)
Theorem check_interpolation_returns_flag :
  ∃ flag,
    (check_interpolation search_abnormal_bonds neb_interpolate
       (VAtoms i0) (VAtoms i1) (VInt n) interpolation verbose save w).1
    = Ok (VBool flag) ∧
    (flag = false ↔ false ∈ bs).
Proof.
  exists (forallb id bs). rewrite check_interpolation_run. split; [done|].
  clear Hchecks. induction bs as [|b rest IH]; simpl.
  - split; [done|]. by intros ?%elem_of_nil.
  - rewrite elem_of_cons. destruct b; simpl; [|by split; auto].
    rewrite IH. split; [auto|]. by intros [?|?].
Qed.

(** C9, as the code has it.  With [save] set and no exception on
    the way, the writer is opened on [interpolation.traj], every one
    of the [n_max] images is written, in order and whatever its
    check gave, and the writer is closed after the last one. *)
Theorem check_interpolation_persists_all :
  save = true →
  writer_events
    (trace (check_interpolation search_abnormal_bonds neb_interpolate
              (VAtoms i0) (VAtoms i1) (VInt n) interpolation verbose save w).2)
  = writer_events (trace w)
    ++ [EvOpen "interpolation.traj"]
    ++ (EvWrite <$> band_of a0 a1 (Z.to_nat (n - 2)) geometries)
    ++ [EvClose].
Proof.
  intros Hsave. rewrite check_interpolation_run. rewrite Hsave.
  cbn [snd trace]. unfold writer_events. rewrite !filter_app.
  f_equal. f_equal. f_equal.
  apply writer_events_loop.
Qed.

End Run.

End InterpolationProps.

(** ** C4: rejection of arguments that are not integers *)

(** A first index that is not an integer, next to a second one that
    is, is rejected with [ValueError] before anything is read or
    changed. *)
Lemma switch_indices_non_integer_A numpy w id A B :
  isinstance_int A = false → isinstance_int B = true →
  switch_indices numpy (VAtoms id) A B w = (Raise ValueError, w).
Proof.
  intros HA HB. unfold switch_indices, bind, ret, raise. by rewrite HA, HB.
Qed.

(** An image count that is not an integer is rejected with
    [ValueError] before any image is built and before the trajectory
    file is opened. *)
Lemma check_interpolation_non_integer_n_max chk neb w i0 i1 n_max interpolation verbose save :
  isinstance_int n_max = false →
  check_interpolation chk neb (VAtoms i0) (VAtoms i1) n_max interpolation verbose save w
  = (Raise ValueError, w).
Proof.
  intros Hn. unfold check_interpolation, bind, ret, raise. by rewrite Hn.
Qed.

(** C4.  What the code does when the second index is not an integer:
    the test [not isinstance(A, int) and isinstance(B, int)] is false
    whatever [A] is, no [ValueError] is raised, and the call ends in the
    [TypeError] of the subscript [t[B]]. *)
Theorem switch_indices_non_integer_B numpy w id m A B :
  structures w !! id = Some m →
  forces_fit w m →
  isinstance_int B = false →
  switch_indices numpy (VAtoms id) A B w = (Raise TypeError, w).
Proof.
  intros Hm Hfit HB.
  unfold switch_indices, bind, ret, raise, lift, get_atoms, get_calc. simpl.
  rewrite HB, andb_false_r, Hm.
  assert (swap_items (seq 0 (length (atoms m))) A B = Raise TypeError) as ->.
  { unfold swap_items, getitem. by destruct B. }
  destruct (calc m) as [c|] eqn:Hc; [|done].
  destruct (Hfit c Hc) as (pc & f & -> & -> & _). done.
Qed.

Lemma switch_indices_non_integer_B_witness :
  (structures w4 !! 0%nat = Some formamide ∧ forces_fit w4 formamide ∧
   isinstance_int (VFloat (3 # 2)) = false) ∧
  switch_indices NumpyStrict (VAtoms 0) (VInt 2) (VFloat (3 # 2)) w4
  = (Raise TypeError, w4).
Proof.
  assert (forces_fit w4 formamide) as Hfit.
  { intros c [= <-].
    exists formamide_calc, (ListForces formamide_forces).
    repeat split; right; reflexivity. }
  split; [repeat split; [exact Hfit]|].
  apply (switch_indices_non_integer_B NumpyStrict w4 0%nat formamide (VInt 2)
           (VFloat (3 # 2)));
    [reflexivity|exact Hfit|reflexivity].
Defined.

(** ** C3: the greedy decomposition on a cycle of four *)

(** The loop depends on the identity test only at the pairs of a
    target value and its position that it visits. *)
Lemma switch_all_loop_ext numpy int_is int_is' new_indices positions :
  (∀ i z, i ∈ positions → new_indices !! i = Some (VInt z) →
          int_is z (Z.of_nat i) = int_is' z (Z.of_nat i)) →
  ∀ model swapped w,
    switch_all_loop numpy int_is new_indices positions model swapped w
    = switch_all_loop numpy int_is' new_indices positions model swapped w.
Proof.
  induction positions as [|i rest IH]; intros Hext model swapped w; [done|].
  simpl. destruct (new_indices !! i) as [v|] eqn:Hv; [|done].
  assert (is_not int_is v (Z.of_nat i) = is_not int_is' v (Z.of_nat i)) as ->.
  { destruct v; try done. simpl. f_equal. apply Hext; [left|done]. }
  assert (∀ model swapped w,
    switch_all_loop numpy int_is new_indices rest model swapped w
    = switch_all_loop numpy int_is' new_indices rest model swapped w) as Hrest.
  { apply IH. intros j z Hj. apply Hext. by right. }
  destruct (is_not int_is' v (Z.of_nat i) && negb (py_in (Z.of_nat i) swapped)).
  - unfold bind.
    destruct (switch_indices numpy model (VInt (Z.of_nat i)) v w) as [[m'|e] w']; [|done].
    apply Hrest.
  - apply Hrest.
Qed.

(** C3.  What the code does for the target [[1, 2, 3, 0]] on four
    atoms, whatever the identity of equal integers is: it swaps
    positions 0 and 1, skips position 1 because 1 was recorded, swaps
    positions 2 and 3 and skips position 3.  The atoms end up in the
    order 1, 0, 3, 2, not in the order 1, 2, 3, 0 that was asked for. *)
Theorem switch_all_indices_four_cycle numpy int_is :
  (∀ a b, int_is a b = true → a = b) →
  (switch_all_indices numpy int_is (VAtoms 0) [VInt 1; VInt 2; VInt 3; VInt 0] w4).1
  = Ok (VAtoms 2) ∧
  tags_of (switch_all_indices numpy int_is (VAtoms 0)
                              [VInt 1; VInt 2; VInt 3; VInt 0] w4).2
          2%nat
  = Some [1; 0; 3; 2] ∧
  tags_of w4 0%nat = Some [0; 1; 2; 3].
Proof.
  intros Hsound.
  assert (switch_all_indices numpy int_is (VAtoms 0) [VInt 1; VInt 2; VInt 3; VInt 0] w4
          = switch_all_indices numpy small_int_is (VAtoms 0)
                               [VInt 1; VInt 2; VInt 3; VInt 0] w4) as ->.
  { unfold switch_all_indices, bind, ret.
    apply switch_all_loop_ext. intros i z Hi Hz.
    assert (z ≠ Z.of_nat i) as Hne.
    { simpl in Hi.
      repeat (apply elem_of_cons in Hi as [->|Hi]; [by injection Hz as <-|]).
      by apply elem_of_nil in Hi. }
    transitivity false.
    - destruct (int_is z (Z.of_nat i)) eqn:E; [by apply Hsound in E|done].
    - symmetry. unfold small_int_is. apply Z.eqb_neq in Hne. by rewrite Hne. }
  by vm_compute.
Qed.

Lemma small_int_is_sound a b : small_int_is a b = true → a = b.
Proof.
  unfold small_int_is. intros H.
  apply andb_true_iff in H as [H _]. apply andb_true_iff in H as [H _].
  by apply Z.eqb_eq.
Qed.

Lemma switch_all_indices_four_cycle_witness :
  (∀ a b, small_int_is a b = true → a = b) ∧
  (switch_all_indices NumpyStrict small_int_is (VAtoms 0)
                      [VInt 1; VInt 2; VInt 3; VInt 0] w4).1
  = Ok (VAtoms 2) ∧
  tags_of (switch_all_indices NumpyStrict small_int_is (VAtoms 0)
                              [VInt 1; VInt 2; VInt 3; VInt 0] w4).2
          2%nat
  = Some [1; 0; 3; 2] ∧
  tags_of w4 0%nat = Some [0; 1; 2; 3].
Proof.
  split; [exact small_int_is_sound|].
  apply (switch_all_indices_four_cycle NumpyStrict small_int_is).
  exact small_int_is_sound.
Defined.

(** ** Witnesses and counterexamples on the concrete stores *)

Lemma forces_fit_w4 : forces_fit w4 formamide.
Proof.
  intros c [= <-]. exists formamide_calc, (ListForces formamide_forces).
  repeat split; right; reflexivity.
Qed.

Lemma forces_fit_w4_array : forces_fit w4_array formamide.
Proof.
  intros c [= <-]. exists formamide_array_calc, (ArrayForces formamide_forces).
  repeat split; right; reflexivity.
Qed.

Lemma comparable_w4 numpy : comparable numpy w4 formamide.
Proof.
  intros c pc rows [= <-] Hpc Hf. injection Hpc as <-. discriminate Hf.
Qed.

Lemma switch_many_breaks_alignment_witness :
  (structures w4_array !! 0%nat = Some formamide ∧ calc formamide = Some 0%nat ∧
   calculators w4_array !! 0%nat = Some formamide_array_calc ∧
   results_forces formamide_array_calc = Some (ArrayForces formamide_forces) ∧
   length formamide_forces = length (atoms formamide) ∧
   0 ≤ 0 < Z.of_nat (length (atoms formamide)) ∧
   0 ≤ 1 < Z.of_nat (length (atoms formamide)) ∧
   formamide_forces !! Z.to_nat 0 ≠ formamide_forces !! Z.to_nat 1) ∧
  switch_many NumpyStrict (VAtoms 0) [(VInt 0, VInt 1)] w4_array
  = (Raise ValueError, w4_array) ∧
  ∃ w' m' pc' rows',
    switch_many NumpyLegacy (VAtoms 0) [(VInt 0, VInt 1)] w4_array
    = (Ok (VAtoms (length (structures w4_array))), w') ∧
    structures w' !! length (structures w4_array) = Some m' ∧ calc m' = Some 0%nat ∧
    calculators w' !! 0%nat = Some pc' ∧ results_forces pc' = Some (ArrayForces rows') ∧
    length rows' = length (atoms m') ∧
    atoms m' !! Z.to_nat 1 = atoms formamide !! Z.to_nat 0 ∧
    rows' !! Z.to_nat 1 = formamide_forces !! Z.to_nat 1 ∧
    rows' !! Z.to_nat 1 ≠ formamide_forces !! Z.to_nat 0.
Proof.
  assert (formamide_forces !! Z.to_nat 0 ≠ formamide_forces !! Z.to_nat 1) as Hne.
  { intros H. discriminate H. }
  split; [repeat split; simpl; try lia; exact Hne|].
  apply (switch_many_breaks_alignment w4_array 0%nat formamide 0%nat
           formamide_array_calc formamide_forces 0 1);
    try reflexivity; simpl; try lia; exact Hne.
Defined.

Lemma switch_indices_self_swap_witness :
  (structures w4_array !! 0%nat = Some formamide ∧
   0 ≤ 1 < Z.of_nat (length (atoms formamide))) ∧
  (∀ c pc, calc formamide = Some c → calculators w4_array !! c = Some pc →
     results_forces pc = None →
     switch_indices NumpyStrict (VAtoms 0) (VInt 1) (VInt 1) w4_array
     = (Raise KeyError, w4_array)) ∧
  (∀ c pc rows, calc formamide = Some c → calculators w4_array !! c = Some pc →
     results_forces pc = Some (ArrayForces rows) →
     switch_indices NumpyStrict (VAtoms 0) (VInt 1) (VInt 1) w4_array
     = (Raise ValueError, w4_array)) ∧
  (forces_fit w4_array formamide → comparable NumpyStrict w4_array formamide →
   ∃ w' m',
     switch_indices NumpyStrict (VAtoms 0) (VInt 1) (VInt 1) w4_array
     = (Ok (VAtoms (length (structures w4_array))), w') ∧
     structures w' !! length (structures w4_array) = Some m' ∧
     atoms m' = atoms formamide ∧ calc m' = calc formamide ∧
     ∀ c pc, calc formamide = Some c → calculators w4_array !! c = Some pc →
       ∃ pc', calculators w' !! c = Some pc' ∧
              results_forces pc' = results_forces pc).
Proof.
  split; [split; [reflexivity|simpl; lia]|].
  apply (switch_indices_self_swap NumpyStrict w4_array 0%nat formamide 1);
    [reflexivity|simpl; lia].
Defined.

Lemma switch_indices_provider_array_forces_witness :
  (structures w4_array !! 0%nat = Some formamide ∧ calc formamide = Some 0%nat ∧
   calculators w4_array !! 0%nat = Some formamide_array_calc ∧
   results_forces formamide_array_calc = Some (ArrayForces formamide_forces) ∧
   length formamide_forces = length (atoms formamide) ∧
   0 ≤ 0 < Z.of_nat (length (atoms formamide)) ∧
   0 ≤ 3 < Z.of_nat (length (atoms formamide))) ∧
  switch_indices NumpyStrict (VAtoms 0) (VInt 0) (VInt 3) w4_array
  = (Raise ValueError, w4_array) ∧
  ∃ w' m' pc',
    switch_indices NumpyLegacy (VAtoms 0) (VInt 0) (VInt 3) w4_array
    = (Ok (VAtoms (length (structures w4_array))), w') ∧
    structures w' !! length (structures w4_array) = Some m' ∧
    calc m' = Some 0%nat ∧
    calculators w' !! 0%nat = Some pc' ∧
    calc_atoms pc' = Some (length (structures w4_array)) ∧
    results_energy pc' = results_energy formamide_array_calc ∧
    atoms m' = swap_pos (atoms formamide) (Z.to_nat 0) (Z.to_nat 3) ∧
    results_forces pc'
    = Some (ArrayForces (overwrite_row formamide_forces (Z.to_nat 0) (Z.to_nat 3))) ∧
    (formamide_forces !! Z.to_nat 0 ≠ formamide_forces !! Z.to_nat 3 →
     overwrite_row formamide_forces (Z.to_nat 0) (Z.to_nat 3)
     ≠ swap_pos formamide_forces (Z.to_nat 0) (Z.to_nat 3)).
Proof.
  split; [repeat split; simpl; lia|].
  apply (switch_indices_provider_array_forces w4_array 0%nat formamide 0%nat
           formamide_array_calc formamide_forces 0 3);
    try reflexivity; simpl; lia.
Defined.




Lemma check_interpolation_aggregate_witness :
  (structures crossing !! 0%nat = Some h2_initial ∧
   structures crossing !! 1%nat = Some h2_final ∧ 2 ≤ 3 ∧
   linear_neb "linear"
     ([h2_initial] ++ replicate (Z.to_nat (3 - 2)) (copy_of h2_initial) ++ [h2_final])
   = Ok crossing_geometries ∧
   Forall2 (fun a b => overlap_checker a false = Ok b)
           (band_of h2_initial h2_final (Z.to_nat (3 - 2)) crossing_geometries)
           [true; false; true]) ∧
  ∃ flag,
    (check_interpolation overlap_checker linear_neb
       (VAtoms 0) (VAtoms 1) (VInt 3) "linear" false true crossing).1
    = Ok (VBool flag) ∧
    length [true; false; true] = Z.to_nat 3 ∧
    flag = forallb id [true; false; true] ∧
    (flag = true ↔ Forall (fun b => b = true) [true; false; true]) ∧
    (∀ before after, [true; false; true] = before ++ false :: after → flag = false).
Proof.
  split; [repeat split; try lia; repeat constructor|].
  refine (check_interpolation_aggregate overlap_checker linear_neb crossing 0%nat 1%nat
            h2_initial h2_final 3 "linear" crossing_geometries _ _ _ _
            false true [true; false; true] _);
    [reflexivity|reflexivity|lia|reflexivity|repeat constructor].
Defined.

Lemma check_interpolation_returns_flag_witness :
  (structures crossing !! 0%nat = Some h2_initial ∧
   structures crossing !! 1%nat = Some h2_final ∧ 2 ≤ 3 ∧
   linear_neb "linear"
     ([h2_initial] ++ replicate (Z.to_nat (3 - 2)) (copy_of h2_initial) ++ [h2_final])
   = Ok crossing_geometries ∧
   Forall2 (fun a b => overlap_checker a true = Ok b)
           (band_of h2_initial h2_final (Z.to_nat (3 - 2)) crossing_geometries)
           [true; false; true]) ∧
  ∃ flag,
    (check_interpolation overlap_checker linear_neb
       (VAtoms 0) (VAtoms 1) (VInt 3) "linear" true false crossing).1
    = Ok (VBool flag) ∧
    (flag = false ↔ false ∈ [true; false; true]).
Proof.
  split; [repeat split; try lia; repeat constructor|].
  refine (check_interpolation_returns_flag overlap_checker linear_neb crossing 0%nat 1%nat
            h2_initial h2_final 3 "linear" crossing_geometries _ _ _ _
            true false [true; false; true] _);
    [reflexivity|reflexivity|lia|reflexivity|repeat constructor].
Defined.

Lemma check_interpolation_persists_all_witness :
  (structures crossing !! 0%nat = Some h2_initial ∧
   structures crossing !! 1%nat = Some h2_final ∧ 2 ≤ 3 ∧
   linear_neb "linear"
     ([h2_initial] ++ replicate (Z.to_nat (3 - 2)) (copy_of h2_initial) ++ [h2_final])
   = Ok crossing_geometries ∧
   Forall2 (fun a b => overlap_checker a false = Ok b)
           (band_of h2_initial h2_final (Z.to_nat (3 - 2)) crossing_geometries)
           [true; false; true] ∧
   true = true) ∧
  writer_events
    (trace (check_interpolation overlap_checker linear_neb
              (VAtoms 0) (VAtoms 1) (VInt 3) "linear" false true crossing).2)
  = writer_events (trace crossing)
    ++ [EvOpen "interpolation.traj"]
    ++ (EvWrite <$> band_of h2_initial h2_final (Z.to_nat (3 - 2)) crossing_geometries)
    ++ [EvClose].
Proof.
  split; [repeat split; try lia; repeat constructor|].
  refine (check_interpolation_persists_all overlap_checker linear_neb crossing 0%nat 1%nat
            h2_initial h2_final 3 "linear" crossing_geometries _ _ _ _
            false true [true; false; true] _ _);
    [reflexivity|reflexivity|lia|reflexivity|repeat constructor|reflexivity].
Defined.

(** The value returned on the crossing path is the boolean [False]
    alone: no pair of a path and a boolean comes back. *)
Lemma check_interpolation_returns_no_path :
  (check_interpolation overlap_checker linear_neb
     (VAtoms 0) (VAtoms 1) (VInt 3) "linear" false true crossing).1
  = Ok (VBool false) ∧
  ¬ ∃ path flag,
      (check_interpolation overlap_checker linear_neb
         (VAtoms 0) (VAtoms 1) (VInt 3) "linear" false true crossing).1
      = Ok (VTuple [path; VBool flag]).
Proof.
  split; [by vm_compute|].
  intros (path & flag & H). vm_compute in H. discriminate H.
Qed.

(** When the bond check raises on the second image, the call ends
    with that exception after the file was opened and the first image
    written, and the writer is never closed. *)
Lemma check_interpolation_leaves_writer_open :
  (check_interpolation strict_checker linear_neb
     (VAtoms 0) (VAtoms 1) (VInt 3) "linear" false true crossing).1
  = Raise (ExternalError "search_abnormal_bonds") ∧
  writer_events
    (trace (check_interpolation strict_checker linear_neb
              (VAtoms 0) (VAtoms 1) (VInt 3) "linear" false true crossing).2)
  = [EvOpen "interpolation.traj"; EvWrite h2_initial] ∧
  EvClose ∉ trace (check_interpolation strict_checker linear_neb
                     (VAtoms 0) (VAtoms 1) (VInt 3) "linear" false true crossing).2.
Proof.
  split; [by vm_compute|]. split; [by vm_compute|].
  intros H. vm_compute in H.
  repeat (apply elem_of_cons in H as [H|H]; [discriminate H|]).
  by apply elem_of_nil in H.
Qed.

(** * Further properties of [switch_indices] *)


Lemma swap_items_int_raise {X : Type} (l : list X) a b :
  (∃ e, index_of_int (length l) a = Raise e) ∨ (∃ e, index_of_int (length l) b = Raise e) →
  swap_items l (VInt a) (VInt b) = Raise IndexError.
Proof.
  intros H. unfold swap_items, getitem. simpl.
  destruct (index_of_int (length l) b) as [ib|eb] eqn:HB.
  - destruct (lookup_lt_is_Some_2 l ib (index_of_int_lt _ _ _ HB)) as [x ->].
    destruct (index_of_int (length l) a) as [ia|ea] eqn:HA.
    + destruct H as [[e H]|[e H]]; congruence.
    + by rewrite (index_of_int_raise _ _ _ HA).
  - by rewrite (index_of_int_raise _ _ _ HB).
Qed.




Lemma forces_fit_swapped w id m ia ib :
  structures w !! id = Some m → forces_fit w m →
  forces_fit (swapped_world w m ia ib)
             (mkAtoms (swap_pos (atoms m) ia ib) (cell m) (pbc m) (calc m)).
Proof.
  intros Hm Hfit c Hc. simpl in Hc.
  destruct (Hfit c Hc) as (pc & f & Hpc & Hf & Hlen).
  unfold swapped_world. simpl. rewrite Hc, list_lookup_alter_eq, Hpc. simpl.
  eexists _, _. split; [done|]. simpl. rewrite Hf. simpl. split; [done|].
  rewrite length_swap_pos.
  destruct Hlen as [->|Hlen]; [left|right].
  - simpl. unfold swap_pos. by rewrite !lookup_nil.
  - destruct f; simpl in *; by rewrite ?length_swap_pos, ?length_overwrite_row.
Qed.

Lemma comparable_swapped numpy w id m ia ib :
  structures w !! id = Some m → forces_fit w m → comparable numpy w m →
  comparable numpy (swapped_world w m ia ib)
             (mkAtoms (swap_pos (atoms m) ia ib) (cell m) (pbc m) (calc m)).
Proof.
  intros Hm Hfit Hcmp c pc' rows Hc. simpl in Hc.
  destruct (Hfit c Hc) as (pc & f & Hpc & Hf & _).
  unfold swapped_world. simpl. rewrite Hc, list_lookup_alter_eq, Hpc. simpl.
  intros [= <-]. simpl. rewrite Hf. simpl.
  destruct f as [l|rows0]; simpl; [done|]. intros _.
  by apply (Hcmp c pc rows0).
Qed.

(** X1.  Swapping the same two positions again, on the Structure the
    first swap returned, gives a Structure with the atoms in their
    original order and the same calculator and energy.  Forces kept in
    a list are the original list again.  Forces kept in an array are
    not restored: the second swap changes nothing in the array, which
    still has row [a] overwritten with row [b]. *)
Theorem switch_indices_involution numpy w id m a b :
  structures w !! id = Some m →
  forces_fit w m →
  comparable numpy w m →
  0 ≤ a < Z.of_nat (length (atoms m)) →
  0 ≤ b < Z.of_nat (length (atoms m)) →
  ∃ w1 w2 m2,
    switch_indices numpy (VAtoms id) (VInt a) (VInt b) w
    = (Ok (VAtoms (length (structures w))), w1) ∧
    switch_indices numpy (VAtoms (length (structures w))) (VInt a) (VInt b) w1
    = (Ok (VAtoms (S (length (structures w)))), w2) ∧
    structures w2 !! S (length (structures w)) = Some m2 ∧
    atoms m2 = atoms m ∧ calc m2 = calc m ∧
    ∀ c pc, calc m = Some c → calculators w !! c = Some pc →
      ∃ pc2, calculators w2 !! c = Some pc2 ∧
             results_energy pc2 = results_energy pc ∧
             (∀ l, results_forces pc = Some (ListForces l) →
                   results_forces pc2 = Some (ListForces l)) ∧
             (∀ rows, results_forces pc = Some (ArrayForces rows) →
                      results_forces pc2
                      = Some (ArrayForces (overwrite_row rows (Z.to_nat a) (Z.to_nat b)))).
Proof.
  intros Hm Hfit Hcmp Ha Hb.
  pose proof (valid_index_to_nat _ _ Ha) as HA.
  pose proof (valid_index_to_nat _ _ Hb) as HB.
  set (ia := Z.to_nat a) in *. set (ib := Z.to_nat b) in *.
  set (m1 := mkAtoms (swap_pos (atoms m) ia ib) (cell m) (pbc m) (calc m)).
  set (w1 := swapped_world w m ia ib).
  assert (structures w1 !! length (structures w) = Some m1) as Hm1
      by (by apply list_lookup_middle).
  assert (length (structures w1) = S (length (structures w))) as Hlen1
      by (unfold w1, swapped_world; simpl; rewrite length_app; simpl; lia).
  exists w1, (swapped_world w1 m1 ia ib). eexists.
  split; [by apply switch_indices_ok|].
  split.
  { rewrite <- Hlen1. apply switch_indices_ok; try done.
    - by eapply forces_fit_swapped.
    - by eapply comparable_swapped.
    - simpl. by rewrite length_swap_pos.
    - simpl. by rewrite length_swap_pos. }
  split.
  { rewrite <- Hlen1. unfold swapped_world at 1. simpl. by apply list_lookup_middle. }
  simpl. split; [apply swap_pos_twice|]. split; [done|].
  intros c pc Hc Hpc. rewrite Hc.
  rewrite !list_lookup_alter_eq, Hpc. simpl. eexists. split; [done|]. simpl.
  split; [done|]. split.
  - intros l ->. simpl. by rewrite swap_pos_twice.
  - intros rows ->. simpl. by rewrite overwrite_row_twice.
Qed.

(** X3.  Negative indices are not rejected: an index in [-N, 0) counts from
    the end, as a subscript of a list and of an array does, so a call
    that goes through is the swap with the index [N + a]. *)
Theorem switch_indices_negative_index numpy w id m a b :
  structures w !! id = Some m →
  forces_fit w m →
  comparable numpy w m →
  - Z.of_nat (length (atoms m)) ≤ a < 0 →
  0 ≤ b < Z.of_nat (length (atoms m)) →
  switch_indices numpy (VAtoms id) (VInt a) (VInt b) w
  = switch_indices numpy (VAtoms id) (VInt (Z.of_nat (length (atoms m)) + a)) (VInt b) w ∧
  switch_indices numpy (VAtoms id) (VInt a) (VInt b) w
  = (Ok (VAtoms (length (structures w))),
     swapped_world w m (Z.to_nat (Z.of_nat (length (atoms m)) + a)) (Z.to_nat b)).
Proof.
  intros Hm Hfit Hcmp Ha Hb.
  pose proof (valid_index_to_nat _ _ Hb) as HB.
  assert (index_of_int (length (atoms m)) a
          = Ok (Z.to_nat (Z.of_nat (length (atoms m)) + a))) as HA.
  { unfold index_of_int.
    replace ((0 <=? a) && (a <? Z.of_nat (length (atoms m)))) with false
      by (symmetry; apply andb_false_iff; left; apply Z.leb_gt; lia).
    replace ((- Z.of_nat (length (atoms m)) <=? a) && (a <? 0)) with true
      by (symmetry; apply andb_true_iff; split; [apply Z.leb_le|apply Z.ltb_lt]; lia).
    by rewrite Z.add_comm. }
  assert (index_of_int (length (atoms m)) (Z.of_nat (length (atoms m)) + a)
          = Ok (Z.to_nat (Z.of_nat (length (atoms m)) + a))) as HA'
      by (apply valid_index_to_nat; lia).
  rewrite (switch_indices_ok _ _ _ _ _ _ _ _ Hm Hfit Hcmp HA HB).
  by rewrite (switch_indices_ok _ _ _ _ _ _ _ _ Hm Hfit Hcmp HA' HB).
Qed.

(** X4.  An integer index outside [-N, N) ends the call with [IndexError],
    in whichever of the two positions it stands, and the store is left
    as it was. *)
Theorem switch_indices_out_of_range numpy w id m a b :
  structures w !! id = Some m →
  forces_fit w m →
  a < - Z.of_nat (length (atoms m)) ∨ Z.of_nat (length (atoms m)) ≤ a →
  switch_indices numpy (VAtoms id) (VInt a) (VInt b) w = (Raise IndexError, w) ∧
  switch_indices numpy (VAtoms id) (VInt b) (VInt a) w = (Raise IndexError, w).
Proof.
  intros Hm Hfit Ha.
  assert (∃ e, index_of_int (length (seq 0 (length (atoms m)))) a = Raise e) as Hbad.
  { exists IndexError. rewrite length_seq. unfold index_of_int.
    replace ((0 <=? a) && (a <? Z.of_nat (length (atoms m)))) with false
      by (symmetry; apply andb_false_iff;
          destruct Ha; [left; apply Z.leb_gt|right; apply Z.ltb_ge]; lia).
    replace ((- Z.of_nat (length (atoms m)) <=? a) && (a <? 0)) with false
      by (symmetry; apply andb_false_iff;
          destruct Ha; [left; apply Z.leb_gt|right; apply Z.ltb_ge]; lia).
    done. }
  split.
  - unfold switch_indices, bind, ret, raise, lift, get_atoms, get_calc. simpl.
    rewrite Hm, (swap_items_int_raise (seq 0 (length (atoms m))) a b) by (by left).
    destruct (calc m) as [c|] eqn:Hc; [|done].
    by destruct (Hfit c Hc) as (pc & f & -> & -> & _).
  - unfold switch_indices, bind, ret, raise, lift, get_atoms, get_calc. simpl.
    rewrite Hm, (swap_items_int_raise (seq 0 (length (atoms m))) b a) by (by right).
    destruct (calc m) as [c|] eqn:Hc; [|done].
    by destruct (Hfit c Hc) as (pc & f & -> & -> & _).
Qed.

(** X5.  A calculator without a ["forces"] entry in its results makes every
    call with integer indices end in [KeyError], valid indices included,
    before anything is changed. *)
Theorem switch_indices_missing_forces numpy w id m c pc a b :
  structures w !! id = Some m → calc m = Some c →
  calculators w !! c = Some pc → results_forces pc = None →
  switch_indices numpy (VAtoms id) (VInt a) (VInt b) w = (Raise KeyError, w).
Proof.
  intros Hm Hc Hpc Hf.
  unfold switch_indices, bind, ret, raise, lift, get_atoms, get_calc. simpl.
  by rewrite Hm, Hc, Hpc, Hf.
Qed.

(** X6.  Without a calculator the swap only adds the new Structure: it has
    the two atoms exchanged and no calculator, and no calculator of the
    store is touched. *)
Theorem switch_indices_no_calculator numpy w id m a b :
  structures w !! id = Some m → calc m = None →
  0 ≤ a < Z.of_nat (length (atoms m)) →
  0 ≤ b < Z.of_nat (length (atoms m)) →
  switch_indices numpy (VAtoms id) (VInt a) (VInt b) w
  = (Ok (VAtoms (length (structures w))),
     mkWorld (structures w
              ++ [mkAtoms (swap_pos (atoms m) (Z.to_nat a) (Z.to_nat b))
                          (cell m) (pbc m) None])
             (calculators w) (files w) (trace w)).
Proof.
  intros Hm Hc Ha Hb.
  rewrite (switch_indices_ok numpy w id m a b (Z.to_nat a) (Z.to_nat b));
    try done; try (by apply valid_index_to_nat).
  - unfold swapped_world. by rewrite Hc.
  - intros c' Hc'. congruence.
  - intros c' pc rows Hc'. congruence.
Qed.

(** ** A structure given as a file name *)

Lemma read_ok w name s :
  files w !! name = Some s →
  ∃ w', read name w = (Ok (VAtoms (length (structures w))), w') ∧
        trace w' = trace w ++ [EvRead name] ∧
        length (structures w') = S (length (structures w)) ∧
        files w' = files w.
Proof.
  intros Hs. unfold read, bind, emit. simpl. rewrite Hs.
  unfold bind, alloc_atoms. simpl.
  destruct (stored_results s) as [[f e]|]; simpl.
  - eexists. split; [done|]. simpl.
    rewrite length_alter, length_app. simpl. split; [done|]. split; [lia|done].
  - eexists. split; [done|]. simpl.
    rewrite length_app. simpl. split; [done|]. split; [lia|done].
Qed.

(** X7.  The file is read before the indices are looked at: with a file
    name for [model] and a first index that is not an integer, the
    [ValueError] comes after the read, which has taken place and has
    produced an object. *)
Theorem switch_indices_reads_before_check numpy w name s A B :
  files w !! name = Some s →
  isinstance_int A = false → isinstance_int B = true →
  ∃ w', switch_indices numpy (VStr name) A B w = (Raise ValueError, w') ∧
        trace w' = trace w ++ [EvRead name] ∧
        length (structures w') = S (length (structures w)).
Proof.
  intros Hs HA HB.
  destruct (read_ok w name s Hs) as (w' & Hread & Htr & Hlen & _).
  exists w'. unfold switch_indices, bind. rewrite Hread, HA, HB. by simpl.
Qed.

(** * Further properties of [check_interpolation] *)

Section InterpolationMore.

Variable search_abnormal_bonds : Atoms -> bool -> outcome bool.
Variable neb_interpolate : string -> list Atoms -> outcome (list (list Atom)).

Variables (w : world) (i0 i1 : nat) (a0 a1 : Atoms) (n : Z).
Variables (interpolation : string).

Hypothesis Hinitial : structures w !! i0 = Some a0.
Hypothesis Hfinal : structures w !! i1 = Some a1.

(** The run for any integer [n_max]: the loop visits the first [n_max]
    images of the band, which has two images when [n_max] is below 2. *)
Lemma check_interpolation_run_any geometries verbose save bs :
  neb_interpolate interpolation
    ([a0] ++ replicate (Z.to_nat (n - 2)) (copy_of a0) ++ [a1]) = Ok geometries →
  Forall2 (fun a b => search_abnormal_bonds a verbose = Ok b)
          (take (Z.to_nat n) (band_of a0 a1 (Z.to_nat (n - 2)) geometries)) bs →
  check_interpolation search_abnormal_bonds neb_interpolate
                      (VAtoms i0) (VAtoms i1) (VInt n) interpolation verbose save w
  = (Ok (VBool (forallb id bs)),
     mkWorld
       (structures w
        ++ with_geometries (replicate (Z.to_nat (n - 2)) (copy_of a0)) geometries)
       (calculators w) (files w)
       (trace w ++ (if save then [EvOpen "interpolation.traj"] else [])
                ++ loop_events verbose save 0
                     (take (Z.to_nat n) (band_of a0 a1 (Z.to_nat (n - 2)) geometries))
                ++ (if save then [EvClose] else []))).
Proof.
  intros Hneb Hchecks.
  match goal with |- _ = ?r => set (result := r) end.
  unfold check_interpolation. unfold bind at 1 2. unfold ret at 1 2. simpl.
  unfold bind at 1. rewrite (build_images_ok _ _ _ _ _ _ _ _ _ Hinitial Hfinal Hneb).
  pose proof (band_images (structures w)
    (with_geometries (replicate (Z.to_nat (n - 2)) (copy_of a0)) geometries)
    _ _ _ _ Hinitial Hfinal) as Hband.
  rewrite length_with_geometries, length_replicate in Hband.
  set (band := band_of a0 a1 (Z.to_nat (n - 2)) geometries) in *.
  assert (length (take (Z.to_nat n) band) = Z.to_nat n) as Hlen.
  { rewrite length_take. unfold band, band_of. simpl.
    rewrite length_app, length_with_geometries, length_replicate. simpl. lia. }
  assert (∀ tr, assess_loop search_abnormal_bonds
             ([VAtoms i0] ++ (VAtoms <$> seq (length (structures w)) (Z.to_nat (n - 2)))
              ++ [VAtoms i1]) verbose save
             (seq 0 (Z.to_nat n)) true
             (mkWorld (structures w ++ with_geometries
                         (replicate (Z.to_nat (n - 2)) (copy_of a0)) geometries)
                      (calculators w) (files w) tr)
           = (Ok (forallb id bs),
              mkWorld (structures w ++ with_geometries
                         (replicate (Z.to_nat (n - 2)) (copy_of a0)) geometries)
                      (calculators w) (files w)
                      (tr ++ loop_events verbose save 0 (take (Z.to_nat n) band)))) as Hloop.
  { intros tr.
    pose proof (assess_loop_ok search_abnormal_bonds
      ([VAtoms i0] ++ (VAtoms <$> seq (length (structures w)) (Z.to_nat (n - 2)))
       ++ [VAtoms i1]) verbose save
      (structures w ++ with_geometries
         (replicate (Z.to_nat (n - 2)) (copy_of a0)) geometries)
      (calculators w) (files w) (take (Z.to_nat n) band) bs 0%nat true tr) as Hrun.
    rewrite Hlen in Hrun. apply Hrun; [|done].
    intros j a Ha. apply lookup_take_Some in Ha as [Ha _].
    eapply Forall2_lookup_r in Hband as (v & Hv & Hva); [|exact Ha].
    eauto. }
  destruct save; unfold bind, emit, ret; cbn [structures calculators files trace];
    rewrite Hloop; cbn [structures calculators files trace]; subst result.
  - by rewrite <- !app_assoc.
  - by rewrite app_nil_r.
Qed.

Lemma writer_events_loop_off verbose first band :
  writer_events (loop_events verbose false first band) = [].
Proof.
  revert first. induction band as [|a rest IH]; intros first; [done|].
  simpl. unfold writer_events in *. destruct verbose; simpl; [|by rewrite IH].
  rewrite filter_cons_False by done. by rewrite IH.
Qed.

Lemma print_events_loop verbose save first band :
  print_events (loop_events verbose save first band)
  = if verbose
    then (fun k => EvPrintAssessing (Z.of_nat k + 1)) <$> seq first (length band)
    else [].
Proof.
  revert first. induction band as [|a rest IH]; intros first; [by destruct verbose|].
  simpl. unfold print_events in *. specialize (IH (S first)).
  destruct verbose, save; simpl;
    rewrite ?(filter_cons_True _ (EvPrintAssessing _)) by done;
    rewrite ?(filter_cons_False _ (EvWrite _)) by (by intros ?);
    by rewrite IH.
Qed.

(** X13.  An image count below 2 is not rejected.  The band is then the two
    end points alone and the loop visits the first [n_max] of them:
    only the initial Structure for [n_max = 1], none at all for
    [n_max <= 0], in which case the value returned is [True] although
    nothing was checked.  No object is added to the store. *)
Theorem check_interpolation_below_two geometries verbose save bs :
  n < 2 →
  neb_interpolate interpolation [a0; a1] = Ok geometries →
  Forall2 (fun a b => search_abnormal_bonds a verbose = Ok b)
          (take (Z.to_nat n) [a0; a1]) bs →
  check_interpolation search_abnormal_bonds neb_interpolate
                      (VAtoms i0) (VAtoms i1) (VInt n) interpolation verbose save w
  = (Ok (VBool (forallb id bs)),
     mkWorld (structures w) (calculators w) (files w)
             (trace w ++ (if save then [EvOpen "interpolation.traj"] else [])
                      ++ loop_events verbose save 0 (take (Z.to_nat n) [a0; a1])
                      ++ (if save then [EvClose] else []))) ∧
  (n ≤ 0 → forallb id bs = true).
Proof.
  intros Hn Hneb Hchecks.
  assert (Z.to_nat (n - 2) = 0%nat) as Hk by lia.
  split.
  - rewrite (check_interpolation_run_any geometries verbose save bs);
      rewrite ?Hk; try done.
    simpl. by rewrite app_nil_r.
  - intros Hn0. replace (Z.to_nat n) with 0%nat in Hchecks by lia.
    simpl in Hchecks. by apply Forall2_nil_inv_l in Hchecks as ->.
Qed.

Section AnyCount.

Variables (geometries : list (list Atom)) (verbose : bool) (bs : list bool).

Hypothesis Hneb :
  neb_interpolate interpolation
    ([a0] ++ replicate (Z.to_nat (n - 2)) (copy_of a0) ++ [a1]) = Ok geometries.
Hypothesis Hchecks :
  Forall2 (fun a b => search_abnormal_bonds a verbose = Ok b)
          (take (Z.to_nat n) (band_of a0 a1 (Z.to_nat (n - 2)) geometries)) bs.

(** X14.  [save] only decides about the file: without it the trajectory
    writer is never opened, written to or closed, and the value returned
    is the one the call returns with [save] set. *)
Theorem check_interpolation_save_off :
  (check_interpolation search_abnormal_bonds neb_interpolate
     (VAtoms i0) (VAtoms i1) (VInt n) interpolation verbose false w).1
  = (check_interpolation search_abnormal_bonds neb_interpolate
       (VAtoms i0) (VAtoms i1) (VInt n) interpolation verbose true w).1 ∧
  writer_events
    (trace (check_interpolation search_abnormal_bonds neb_interpolate
              (VAtoms i0) (VAtoms i1) (VInt n) interpolation verbose false w).2)
  = writer_events (trace w).
Proof.
  rewrite !(check_interpolation_run_any geometries verbose _ bs) by done.
  split; [done|]. cbn [snd trace]. unfold writer_events. rewrite !filter_app.
  fold (writer_events (loop_events verbose false 0
          (take (Z.to_nat n) (band_of a0 a1 (Z.to_nat (n - 2)) geometries)))).
  rewrite writer_events_loop_off. simpl. by rewrite !app_nil_r.
Qed.

(** X15.  With [verbose] set one line is printed per image assessed,
    numbered from 1 to [n_max] in this order; without it nothing is
    printed.  [save] makes no difference to that. *)
Theorem check_interpolation_print_numbering save :
  print_events
    (trace (check_interpolation search_abnormal_bonds neb_interpolate
              (VAtoms i0) (VAtoms i1) (VInt n) interpolation verbose save w).2)
  = print_events (trace w)
    ++ (if verbose
        then (fun k => EvPrintAssessing (Z.of_nat k + 1)) <$> seq 0 (Z.to_nat n)
        else []).
Proof.
  rewrite (check_interpolation_run_any geometries verbose save bs) by done.
  cbn [snd trace]. unfold print_events. rewrite !filter_app.
  fold (print_events (loop_events verbose save 0
          (take (Z.to_nat n) (band_of a0 a1 (Z.to_nat (n - 2)) geometries)))).
  rewrite print_events_loop.
  assert (length (take (Z.to_nat n) (band_of a0 a1 (Z.to_nat (n - 2)) geometries))
          = Z.to_nat n) as ->.
  { rewrite length_take. unfold band_of. simpl.
    rewrite length_app, length_with_geometries, length_replicate. simpl. lia. }
  f_equal. destruct save; simpl; by rewrite ?app_nil_r.
Qed.

(** X16.  What a run leaves behind among the objects of the store: the
    [n_max - 2] interior images are added as new objects, every object
    that existed keeps its place and content, and no calculator is
    touched. *)
Theorem check_interpolation_frame save :
  calculators (check_interpolation search_abnormal_bonds neb_interpolate
                 (VAtoms i0) (VAtoms i1) (VInt n) interpolation verbose save w).2
  = calculators w ∧
  length (structures (check_interpolation search_abnormal_bonds neb_interpolate
                        (VAtoms i0) (VAtoms i1) (VInt n) interpolation verbose save w).2)
  = (length (structures w) + Z.to_nat (n - 2))%nat ∧
  ∀ j, (j < length (structures w))%nat →
       structures (check_interpolation search_abnormal_bonds neb_interpolate
                     (VAtoms i0) (VAtoms i1) (VInt n) interpolation verbose save w).2 !! j
       = structures w !! j.
Proof.
  rewrite (check_interpolation_run_any geometries verbose save bs) by done.
  cbn [snd structures calculators].
  split; [done|]. split.
  - by rewrite length_app, length_with_geometries, length_replicate.
  - intros j Hj. by apply lookup_app_l.
Qed.

End AnyCount.

(** X17.  When the interpolation itself raises, the call ends with that
    exception before the trajectory file is opened: nothing was printed
    or written, and the copies of the initial Structure made for the
    interior images are all that was added to the store. *)
Theorem check_interpolation_neb_failure e verbose save :
  neb_interpolate interpolation
    ([a0] ++ replicate (Z.to_nat (n - 2)) (copy_of a0) ++ [a1]) = Raise e →
  check_interpolation search_abnormal_bonds neb_interpolate
                      (VAtoms i0) (VAtoms i1) (VInt n) interpolation verbose save w
  = (Raise e,
     mkWorld (structures w ++ replicate (Z.to_nat (n - 2)) (copy_of a0))
             (calculators w) (files w) (trace w)).
Proof.
  intros Hneb.
  unfold check_interpolation. unfold bind at 1 2. unfold ret at 1 2. simpl.
  unfold bind at 1. unfold build_images, bind.
  rewrite (copies_ok i0 a0) by done.
  set (k := Z.to_nat (n - 2)) in *.
  pose proof (band_images (structures w) (replicate k (copy_of a0)) _ _ _ _
                          Hinitial Hfinal) as Hband.
  rewrite length_replicate in Hband.
  rewrite (deref_images_ok _ ([a0] ++ replicate k (copy_of a0) ++ [a1])) by done.
  unfold lift. by rewrite Hneb.
Qed.

End InterpolationMore.

(** X18.  Both end points given as file names are read, the initial one
    first, before the image count is looked at: a count that is not an
    integer is rejected with [ValueError] after the two reads. *)
Theorem check_interpolation_reads_before_check
        chk neb w n0 n1 s0 s1 n_max interpolation verbose save :
  files w !! n0 = Some s0 → files w !! n1 = Some s1 →
  isinstance_int n_max = false →
  ∃ w', check_interpolation chk neb (VStr n0) (VStr n1) n_max interpolation verbose save w
        = (Raise ValueError, w') ∧
        trace w' = trace w ++ [EvRead n0; EvRead n1] ∧
        length (structures w') = S (S (length (structures w))).
Proof.
  intros H0 H1 Hn.
  destruct (read_ok w n0 s0 H0) as (w1 & Hr0 & Htr0 & Hlen0 & Hf0).
  rewrite <- Hf0 in H1.
  destruct (read_ok w1 n1 s1 H1) as (w2 & Hr1 & Htr1 & Hlen1 & _).
  exists w2. unfold check_interpolation, bind. rewrite Hr0, Hr1, Hn. simpl.
  split; [done|]. split; [|lia].
  by rewrite Htr1, Htr0, <- app_assoc.
Qed.

(** X8.  A file name that cannot be read ends each of the three functions
    with the reader's exception, at once: the read attempt is all that
    has happened. *)
Theorem missing_file_propagates numpy int_is chk neb w name A B new_indices
        final n_max interpolation verbose save :
  files w !! name = None →
  switch_indices numpy (VStr name) A B w
  = (Raise FileNotFoundError,
     mkWorld (structures w) (calculators w) (files w) (trace w ++ [EvRead name])) ∧
  switch_all_indices numpy int_is (VStr name) new_indices w
  = (Raise FileNotFoundError,
     mkWorld (structures w) (calculators w) (files w) (trace w ++ [EvRead name])) ∧
  check_interpolation chk neb (VStr name) final n_max interpolation verbose save w
  = (Raise FileNotFoundError,
     mkWorld (structures w) (calculators w) (files w) (trace w ++ [EvRead name])).
Proof.
  intros Hnone.
  assert (read name w
          = (Raise FileNotFoundError,
             mkWorld (structures w) (calculators w) (files w) (trace w ++ [EvRead name])))
    as Hread.
  { unfold read, bind, emit. simpl. by rewrite Hnone. }
  unfold switch_indices, switch_all_indices, check_interpolation, bind.
  by rewrite Hread.
Qed.

(** * Further properties of [switch_all_indices] *)

Lemma greedy_reorder_length {X : Type} int_is new_indices positions :
  ∀ (l : list X) swapped,
    length (greedy_reorder int_is new_indices positions l swapped) = length l.
Proof.
  induction positions as [|i rest IH]; intros l swapped; [done|].
  simpl. destruct (new_indices !! i) as [v|]; [|done].
  destruct (is_not int_is v (Z.of_nat i) && negb (py_in (Z.of_nat i) swapped)).
  - by rewrite IH, length_swap_pos.
  - apply IH.
Qed.

Lemma greedy_reorder_Permutation {X : Type} int_is new_indices positions :
  ∀ (l : list X) swapped,
    greedy_reorder int_is new_indices positions l swapped ≡ₚ l.
Proof.
  induction positions as [|i rest IH]; intros l swapped; [done|].
  simpl. destruct (new_indices !! i) as [v|]; [|done].
  destruct (is_not int_is v (Z.of_nat i) && negb (py_in (Z.of_nat i) swapped)).
  - by rewrite IH, swap_pos_Permutation.
  - apply IH.
Qed.

Lemma greedy_forces_list int_is new_indices positions :
  ∀ l swapped,
    greedy_forces int_is new_indices positions (ListForces l) swapped
    = ListForces (greedy_reorder int_is new_indices positions l swapped).
Proof.
  induction positions as [|i rest IH]; intros l swapped; [done|].
  simpl. destruct (new_indices !! i) as [v|]; [|done].
  destruct (is_not int_is v (Z.of_nat i) && negb (py_in (Z.of_nat i) swapped)).
  - apply IH.
  - apply IH.
Qed.

Lemma reorder_forces_self i f : reorder_forces i i f = f.
Proof.
  destruct f; simpl; by rewrite ?swap_pos_self, ?overwrite_row_self.
Qed.

Lemma greedy_forces_identity int_is n positions :
  ∀ f swapped,
    (∀ i, i ∈ positions → (i < n)%nat) →
    greedy_forces int_is (targets (seq 0 n)) positions f swapped = f.
Proof.
  induction positions as [|i rest IH]; intros f swapped Hpos; [done|].
  simpl. unfold targets at 1.
  rewrite list_lookup_fmap, lookup_seq_lt by (apply Hpos; by left). simpl.
  assert (∀ j, j ∈ rest → (j < n)%nat) as Hrest by (intros j Hj; apply Hpos; by right).
  destruct (negb (int_is (Z.of_nat i) (Z.of_nat i)) && negb (py_in (Z.of_nat i) swapped)).
  - rewrite Nat2Z.id, reorder_forces_self. by apply IH.
  - by apply IH.
Qed.

(** The loop of [switch_all_indices] on a Structure of the store, when
    every target it visits is a valid index: it returns, and atoms and
    forces have gone through the loop on a plain list and on a force
    container. *)
Lemma switch_all_loop_refines numpy int_is new_indices positions :
  ∀ id w swapped m,
    structures w !! id = Some m →
    forces_fit w m →
    comparable numpy w m →
    (∀ i, i ∈ positions →
          (i < length (atoms m))%nat ∧
          ∃ z, new_indices !! i = Some (VInt z) ∧ 0 ≤ z < Z.of_nat (length (atoms m))) →
    ∃ id' w' m',
      switch_all_loop numpy int_is new_indices positions (VAtoms id) swapped w
      = (Ok (VAtoms id'), w') ∧
      structures w' !! id' = Some m' ∧
      forces_fit w' m' ∧
      comparable numpy w' m' ∧
      atoms m' = greedy_reorder int_is new_indices positions (atoms m) swapped ∧
      calc m' = calc m ∧ cell m' = cell m ∧ pbc m' = pbc m ∧
      (∀ j, (j < length (structures w))%nat → structures w' !! j = structures w !! j) ∧
      ∀ c pc, calc m = Some c → calculators w !! c = Some pc →
        ∃ pc', calculators w' !! c = Some pc' ∧
               results_energy pc' = results_energy pc ∧
               results_forces pc'
               = (fun f => greedy_forces int_is new_indices positions f swapped)
                   <$> results_forces pc.
Proof.
  induction positions as [|i rest IH]; intros id w swapped m Hm Hfit Hcmp Hpos.
  - exists id, w, m. simpl. repeat (split; [done|]).
    intros c pc _ Hpc. exists pc. repeat (split; [done|]).
    by destruct (results_forces pc).
  - destruct (Hpos i) as (Hi & z & Hz & Hzr); [by left|].
    assert (∀ j, j ∈ rest →
              (j < length (atoms m))%nat ∧
              ∃ z, new_indices !! j = Some (VInt z) ∧ 0 ≤ z < Z.of_nat (length (atoms m)))
      as Hrest by (intros j Hj; apply Hpos; by right).
    simpl. rewrite Hz.
    destruct (is_not int_is (VInt z) (Z.of_nat i) && negb (py_in (Z.of_nat i) swapped)).
    + unfold bind.
      assert (index_of_int (length (atoms m)) (Z.of_nat i) = Ok i) as HA
          by (rewrite valid_index_to_nat by lia; by rewrite Nat2Z.id).
      pose proof (valid_index_to_nat _ _ Hzr) as HB.
      rewrite (switch_indices_ok _ _ _ _ _ _ _ _ Hm Hfit Hcmp HA HB).
      set (m1 := mkAtoms (swap_pos (atoms m) i (Z.to_nat z)) (cell m) (pbc m) (calc m)).
      set (w1 := swapped_world w m i (Z.to_nat z)).
      assert (structures w1 !! length (structures w) = Some m1) as Hm1
          by (by apply list_lookup_middle).
      destruct (IH (length (structures w)) w1 (swapped ++ [VInt z]) m1 Hm1)
        as (id' & w' & m' & Hrun & Hm' & Hfit' & Hcmp' & Hat & Hc' & Hcell & Hpbc
            & Hframe & Hcalc).
      { by eapply forces_fit_swapped. }
      { by eapply comparable_swapped. }
      { simpl. by rewrite length_swap_pos. }
      exists id', w', m'. repeat (split; [done|]).
      split.
      { intros j Hj. rewrite Hframe.
        - unfold w1, swapped_world. simpl. by apply lookup_app_l.
        - unfold w1, swapped_world. simpl. rewrite length_app. lia. }
      intros c pc Hc Hpc.
      destruct (Hcalc c (mkCalculator
                  (reorder_forces i (Z.to_nat z) <$> results_forces pc)
                  (results_energy pc) (Some (length (structures w)))) Hc)
        as (pc' & Hpc' & He & Hf).
      { unfold w1, swapped_world. simpl. by rewrite Hc, list_lookup_alter_eq, Hpc. }
      exists pc'. split; [done|]. split; [done|].
      rewrite Hf. simpl. by destruct (results_forces pc).
    + destruct (IH id w swapped m Hm Hfit Hcmp Hrest)
        as (id' & w' & m' & Hrun & Hm' & Hfit' & Hcmp' & Hat & Hc' & Hcell & Hpbc
            & Hframe & Hcalc).
      exists id', w', m'. by repeat (split; [done|]).
Qed.

(** ** The order [switch_all_indices] produces *)

Section GreedyInvolution.
Context {X : Type}.
Variable int_is : Z -> Z -> bool.
Variables (p : list nat) (l : list X).
Hypothesis Hsound : ∀ a b, int_is a b = true → a = b.
Hypothesis Hinv : ∀ i j, p !! i = Some j → p !! j = Some i.

Lemma py_in_recorded k pk sw :
  p !! k = Some pk →
  (∀ v, v ∈ sw → ∃ i j, v = VInt (Z.of_nat j) ∧ p !! i = Some j ∧ (i < k)%nat ∧ (i ≤ j)%nat) →
  (∀ i j, p !! i = Some j → (i < k)%nat → (i < j)%nat → VInt (Z.of_nat j) ∈ sw) →
  py_in (Z.of_nat k) sw = true ↔ (pk < k)%nat.
Proof.
  intros Hk Hb Hc. unfold py_in. rewrite existsb_exists. split.
  - intros (v & Hv & Heq). apply list_elem_of_In in Hv.
    destruct (Hb v Hv) as (i & j & -> & Hij & Hik & Hle).
    simpl in Heq. apply Z.eqb_eq, Nat2Z.inj in Heq. subst j.
    apply Hinv in Hij. assert (pk = i) by congruence. lia.
  - intros Hlt. exists (VInt (Z.of_nat k)). split.
    + apply list_elem_of_In. apply (Hc pk k); [by apply Hinv|done|done].
    + simpl. apply Z.eqb_refl.
Qed.

Lemma greedy_involution_gen d :
  ∀ k c sw,
    (k + d = length p)%nat → length c = length p →
    (∀ i j, p !! i = Some j →
            c !! i = l !! (if decide (i < k ∨ j < k)%nat then j else i)) →
    (∀ v, v ∈ sw →
          ∃ i j, v = VInt (Z.of_nat j) ∧ p !! i = Some j ∧ (i < k)%nat ∧ (i ≤ j)%nat) →
    (∀ i j, p !! i = Some j → (i < k)%nat → (i < j)%nat → VInt (Z.of_nat j) ∈ sw) →
    ∀ i j, p !! i = Some j →
           greedy_reorder int_is (targets p) (seq k d) c sw !! i = l !! j.
Proof.
  induction d as [|d IH]; intros k c sw Hkd Hlc Ha Hb Hc i j Hij.
  - simpl. rewrite (Ha i j Hij). apply lookup_lt_Some in Hij.
    case_decide; [done|lia].
  - assert (k < length p)%nat as Hk by lia.
    destruct (lookup_lt_is_Some_2 p k Hk) as [pk Hpk].
    pose proof (Hinv _ _ Hpk) as Hpk'.
    pose proof (lookup_lt_Some _ _ _ Hpk') as Hpkl.
    pose proof (py_in_recorded k pk sw Hpk Hb Hc) as Hin.
    cbn [seq greedy_reorder]. unfold targets at 1. rewrite list_lookup_fmap, Hpk.
    cbn [fmap option_fmap option_map is_not int_value].
    (* the state after a step that leaves the list alone *)
    assert (∀ sw',
              (pk ≤ k)%nat →
              (∀ v, v ∈ sw' → v ∈ sw ∨ (v = VInt (Z.of_nat pk) ∧ pk = k)) →
              (∀ v, v ∈ sw → v ∈ sw') →
              greedy_reorder int_is (targets p) (seq (S k) d) c sw' !! i = l !! j) as Hskip.
    { intros sw' Hle Hsub Hsup. apply IH; try done; [lia| | |].
      - intros i' j' Hij'. rewrite (Ha i' j' Hij').
        repeat case_decide; try done; try lia.
        assert (i' = k ∨ j' = k) as [->| ->] by lia.
        + assert (j' = pk) by congruence. subst. 
          assert (pk = k) by lia. by subst.
        + apply Hinv in Hij'. assert (i' = pk) by congruence. subst.
          assert (pk = k) by lia. by subst.
      - intros v Hv. destruct (Hsub v Hv) as [Hv'|[-> ->]].
        + destruct (Hb v Hv') as (i' & j' & -> & ? & ? & ?).
          exists i', j'. repeat split; try done. lia.
        + exists k, k. repeat split; try done. lia.
      - intros i' j' Hij' Hlt1 Hlt2.
        apply Hsup.
        assert (i' ≠ k). { intros ->. assert (j' = pk) by congruence. lia. }
        apply (Hc i' j'); try done. lia. }
    destruct (decide (pk < k)%nat) as [Hlt|Hge].
    + apply Hin in Hlt as Hlt'. rewrite Hlt', andb_false_r.
      apply Hskip; [lia|by left|done].
    + assert (py_in (Z.of_nat k) sw = false) as ->.
      { destruct (py_in (Z.of_nat k) sw); [|done]. exfalso. apply Hge. by apply Hin. }
      rewrite andb_true_r.
      destruct (int_is (Z.of_nat pk) (Z.of_nat k)) eqn:E; cbn [negb].
      * apply Hsound, Nat2Z.inj in E. apply Hskip; [lia|by left|done].
      * rewrite Nat2Z.id.
        destruct (decide (pk = k)) as [->|Hne].
        { rewrite swap_pos_self. apply Hskip; [lia| |].
          - intros v [Hv|Hv]%elem_of_app; [by left|right].
            apply list_elem_of_singleton in Hv. by split.
          - intros v Hv. apply elem_of_app. by left. }
        apply IH; try done; [lia|by rewrite length_swap_pos| | |].
        -- intros i' j' Hij'.
           rewrite lookup_swap_pos by (rewrite Hlc; lia).
           unfold transp. repeat case_decide; subst.
           all: try (assert (j' = k) by congruence).
           all: try (assert (j' = pk) by congruence).
           all: subst; try lia.
           all: try (rewrite (Ha _ _ Hpk)); try (rewrite (Ha _ _ Hpk'));
             try (rewrite (Ha _ _ Hij')).
           all: repeat case_decide; try done; try lia.
           exfalso. assert (j' = k) as -> by lia.
           apply Hinv in Hij'. congruence.
        -- intros v [Hv|Hv]%elem_of_app.
           ++ destruct (Hb v Hv) as (i' & j' & -> & ? & ? & ?).
              exists i', j'. repeat split; try done. lia.
           ++ apply list_elem_of_singleton in Hv as ->.
              exists k, pk. repeat split; try done; lia.
        -- intros i' j' Hij' Hlt1 Hlt2. apply elem_of_app.
           destruct (decide (i' = k)) as [->|Hik].
           ++ right. assert (j' = pk) as -> by congruence.
              by apply list_elem_of_singleton.
           ++ left. apply (Hc i' j'); try done. lia.
Qed.
End GreedyInvolution.

Lemma greedy_reorder_identity {X : Type} int_is n positions :
  ∀ (l : list X) swapped,
    (∀ i, i ∈ positions → (i < n)%nat) →
    greedy_reorder int_is (targets (seq 0 n)) positions l swapped = l.
Proof.
  induction positions as [|i rest IH]; intros l swapped Hpos; [done|].
  simpl. unfold targets at 1.
  rewrite list_lookup_fmap, lookup_seq_lt by (apply Hpos; by left). simpl.
  assert (∀ j, j ∈ rest → (j < n)%nat) as Hrest by (intros j Hj; apply Hpos; by right).
  destruct (negb (int_is (Z.of_nat i) (Z.of_nat i)) && negb (py_in (Z.of_nat i) swapped)).
  - rewrite Nat2Z.id, swap_pos_self. by apply IH.
  - by apply IH.
Qed.

Lemma targets_in_range p n i :
  (∀ i j, p !! i = Some j → (j < n)%nat) →
  i ∈ seq 0 (length (targets p)) →
  (length p ≤ n)%nat →
  (i < n)%nat ∧ ∃ z, targets p !! i = Some (VInt z) ∧ 0 ≤ z < Z.of_nat n.
Proof.
  intros Hr Hi Hle. apply elem_of_seq in Hi as [_ Hi].
  unfold targets in *. rewrite length_fmap in Hi. simpl in Hi.
  destruct (lookup_lt_is_Some_2 p i Hi) as [j Hj].
  split; [lia|]. exists (Z.of_nat j). rewrite list_lookup_fmap, Hj.
  split; [done|]. specialize (Hr _ _ Hj). lia.
Qed.

(** X9.  Identity reindex: with the target [[0, 1, ..., N-1]] the Structure
    returned has the atoms in the order of the input and the same
    calculator, whose forces and energy are what they were, whatever
    the identity of equal integers is (where [is] tells equal integers
    apart, each position is swapped with itself), as long as the
    comparison [f == []] of such a swap gives an answer. *)
Theorem switch_all_indices_identity numpy int_is w id m :
  structures w !! id = Some m →
  forces_fit w m →
  comparable numpy w m →
  ∃ id' w' m',
    switch_all_indices numpy int_is (VAtoms id) (targets (seq 0 (length (atoms m)))) w
    = (Ok (VAtoms id'), w') ∧
    structures w' !! id' = Some m' ∧
    atoms m' = atoms m ∧ calc m' = calc m ∧
    ∀ c pc, calc m = Some c → calculators w !! c = Some pc →
      ∃ pc', calculators w' !! c = Some pc' ∧
             results_forces pc' = results_forces pc ∧
             results_energy pc' = results_energy pc.
Proof.
  intros Hm Hfit Hcmp.
  set (n := length (atoms m)).
  assert (∀ i, i ∈ seq 0 (length (targets (seq 0 n))) → (i < n)%nat) as Hlt.
  { intros i Hi. apply elem_of_seq in Hi.
    unfold targets in Hi. rewrite length_fmap, length_seq in Hi. lia. }
  destruct (switch_all_loop_refines numpy int_is (targets (seq 0 n))
              (seq 0 (length (targets (seq 0 n)))) id w [] m Hm Hfit Hcmp)
    as (id' & w' & m' & Hrun & Hm' & _ & _ & Hat & Hc & _ & _ & _ & Hcalc).
  { intros i Hi. apply (targets_in_range (seq 0 n) n); [|done|by rewrite length_seq].
    by intros i' j' [-> ?]%lookup_seq. }
  exists id', w', m'. split; [done|]. split; [done|].
  split; [by rewrite Hat, greedy_reorder_identity|]. split; [done|].
  intros c pc Hcm Hpc. destruct (Hcalc c pc Hcm Hpc) as (pc' & Hpc' & He & Hf).
  exists pc'. split; [done|]. split; [|done].
  rewrite Hf. destruct (results_forces pc) as [f|]; [|done]. simpl.
  by rewrite greedy_forces_identity.
Qed.

(** X10.  The targets the greedy loop gets right, for the atoms: when
    [new_indices] is a permutation that is its own inverse (a product
    of disjoint swaps, the identity included) and the comparison
    [f == []] gives an answer, the Structure returned has at every
    position [i] the atom that was at [new_indices[i]].  Forces kept in
    a list are reordered the same way. *)
Theorem switch_all_indices_involution numpy int_is w id m p :
  (∀ a b, int_is a b = true → a = b) →
  structures w !! id = Some m →
  forces_fit w m →
  comparable numpy w m →
  length p = length (atoms m) →
  (∀ i j, p !! i = Some j → p !! j = Some i) →
  ∃ id' w' m',
    switch_all_indices numpy int_is (VAtoms id) (targets p) w = (Ok (VAtoms id'), w') ∧
    structures w' !! id' = Some m' ∧
    length (atoms m') = length (atoms m) ∧
    (∀ i j, p !! i = Some j → atoms m' !! i = atoms m !! j) ∧
    calc m' = calc m ∧
    ∀ c pc f, calc m = Some c → calculators w !! c = Some pc →
      results_forces pc = Some (ListForces f) →
      ∃ pc' f', calculators w' !! c = Some pc' ∧
                results_forces pc' = Some (ListForces f') ∧
                results_energy pc' = results_energy pc ∧
                length f' = length f ∧
                ∀ i j, p !! i = Some j → f' !! i = f !! j.
Proof.
  intros Hsound Hm Hfit Hcmp Hlen Hinv.
  assert (length (targets p) = length p) as Hlt by (unfold targets; by rewrite length_fmap).
  destruct (switch_all_loop_refines numpy int_is (targets p)
              (seq 0 (length (targets p))) id w [] m Hm Hfit Hcmp)
    as (id' & w' & m' & Hrun & Hm' & _ & _ & Hat & Hc & _ & _ & _ & Hcalc).
  { intros i Hi. apply (targets_in_range p (length (atoms m))); [|done|lia].
    intros i' j' Hij. apply Hinv, lookup_lt_Some in Hij. lia. }
  assert (∀ (Y : Type) (l : list Y), length l = length p →
            ∀ i j, p !! i = Some j →
                   greedy_reorder int_is (targets p) (seq 0 (length (targets p))) l [] !! i
                   = l !! j) as Hgreedy.
  { intros Y l Hl i j Hij. rewrite Hlt.
    apply (greedy_involution_gen int_is p l Hsound Hinv (length p) 0%nat l []);
      [done|done| | | |done].
    - intros i' j' _. case_decide; [lia|done].
    - by intros v ?%elem_of_nil.
    - intros i' j' _ ?. lia. }
  exists id', w', m'. split; [done|]. split; [done|].
  split; [by rewrite Hat, greedy_reorder_length|].
  split; [intros i j Hij; rewrite Hat; by apply Hgreedy|]. split; [done|].
  intros c pc f Hcm Hpc Hf.
  destruct (Hcalc c pc Hcm Hpc) as (pc' & Hpc' & He & Hf').
  rewrite Hf in Hf'. simpl in Hf'. rewrite greedy_forces_list in Hf'.
  eexists pc', _. split; [done|]. split; [done|]. split; [done|].
  split; [by rewrite greedy_reorder_length|].
  intros i j Hij.
  destruct (Hfit c Hcm) as (pc0 & f0 & Hpc0 & Hf0 & Hfl).
  assert (f0 = ListForces f) as -> by congruence.
  destruct Hfl as [Hnil|Hfl].
  - injection Hnil as ->.
    assert (greedy_reorder int_is (targets p) (seq 0 (length (targets p)))
                           ([] : list vec3) [] = []) as ->.
    { apply length_zero_iff_nil. by rewrite greedy_reorder_length. }
    by rewrite !lookup_nil.
  - simpl in Hfl. apply Hgreedy; [lia|done].
Qed.

(** X11.  No check of [new_indices] is needed for the atoms: whenever its
    entries are integers in [[0, N)] and it is no longer than the atom
    list, permutation or not, and the comparison [f == []] gives an
    answer, [switch_all_indices] returns, and the Structure returned
    holds the atoms of the input, each as often as the input did, with
    the cell, the flags and the calculator of the input: no atom is
    lost or doubled. *)
Theorem switch_all_indices_keeps_atoms numpy int_is w id m new_indices :
  structures w !! id = Some m →
  forces_fit w m →
  comparable numpy w m →
  (length new_indices ≤ length (atoms m))%nat →
  (∀ i v, new_indices !! i = Some v →
          ∃ z, v = VInt z ∧ 0 ≤ z < Z.of_nat (length (atoms m))) →
  ∃ id' w' m',
    switch_all_indices numpy int_is (VAtoms id) new_indices w = (Ok (VAtoms id'), w') ∧
    structures w' !! id' = Some m' ∧
    atoms m' ≡ₚ atoms m ∧
    calc m' = calc m ∧ cell m' = cell m ∧ pbc m' = pbc m.
Proof.
  intros Hm Hfit Hcmp Hshort Hval.
  destruct (switch_all_loop_refines numpy int_is new_indices
              (seq 0 (length new_indices)) id w [] m Hm Hfit Hcmp)
    as (id' & w' & m' & Hrun & Hm' & _ & _ & Hat & Hc & Hcell & Hpbc & _ & _).
  { intros i Hi. apply elem_of_seq in Hi as [_ Hi]. simpl in Hi.
    destruct (lookup_lt_is_Some_2 new_indices i Hi) as [v Hv].
    destruct (Hval i v Hv) as (z & -> & Hz).
    split; [lia|]. by exists z. }
  exists id', w', m'. split; [done|]. split; [done|].
  split; [by rewrite Hat, greedy_reorder_Permutation|]. done.
Qed.

(** * Properties of [vib_analysis] *)

Lemma atom_pairs_count_from n k :
  ∀ a, (a + k ≤ n)%nat →
    (2 * length (i ← seq a k; (fun j => (i, j)) <$> seq (i + 1) (n - (i + 1)))
     + k * (2 * a + k + 1) = 2 * k * n)%nat.
Proof.
  induction k as [|k IH]; intros a Ha; [simpl; lia|].
  cbn [seq]. rewrite bind_cons, length_app, length_fmap, length_seq.
  specialize (IH (S a) ltac:(lia)). nia.
Qed.

Lemma atom_pairs_count n : (2 * length (atom_pairs n) = n * (n - 1))%nat.
Proof.
  unfold atom_pairs. destruct n as [|n]; [done|].
  pose proof (atom_pairs_count_from (S n) (S n - 1) 0%nat ltac:(lia)). nia.
Qed.

Lemma curves_app plots1 plots2 : curves (plots1 ++ plots2) = curves plots1 ++ curves plots2.
Proof. unfold curves. apply omap_app. Qed.

Section VibrationsProps.

Variable read_image : string -> outcome Atoms.
Variable open_trajectory : string -> outcome (list Atoms).
Variable get_distance : Atoms -> nat -> nat -> outcome Q.

Lemma collect_distances_ok traj i j (dist : Atoms -> Q) :
  ∀ distances,
    (∀ a, a ∈ traj → get_distance a i j = Ok (dist a)) →
    collect_distances get_distance traj i j distances = Ok (distances ++ (dist <$> traj)).
Proof.
  induction traj as [|a rest IH]; intros distances Hd; simpl.
  - by rewrite app_nil_r.
  - rewrite Hd by (by left). rewrite IH by (intros a' Ha'; apply Hd; by right).
    by rewrite <- app_assoc.
Qed.

Lemma pair_loop_ok traj i (dist : Atoms -> nat -> nat -> Q) js :
  ∀ plots,
    (∀ a j, a ∈ traj → j ∈ js → get_distance a i j = Ok (dist a i j)) →
    ∃ drawn,
      pair_loop get_distance traj i js plots = (Ok tt, plots ++ drawn) ∧
      curves drawn
      = (fun j => (seq 0 (length traj), (fun a => dist a i j) <$> traj)) <$> js.
Proof.
  induction js as [|j rest IH]; intros plots Hd.
  - exists []. by rewrite app_nil_r.
  - simpl.
    rewrite (collect_distances_ok traj i j (fun a => dist a i j))
      by (intros a Ha; apply Hd; [done|by left]).
    simpl. rewrite length_fmap.
    edestruct IH as (drawn & -> & Hc); [intros a j' Ha Hj'; apply Hd; [done|by right]|].
    eexists. rewrite <- app_assoc. split; [done|].
    rewrite curves_app. simpl. by rewrite Hc.
Qed.

Lemma atom_loop_ok traj n (dist : Atoms -> nat -> nat -> Q) positions :
  ∀ plots,
    (∀ a i j, a ∈ traj → i ∈ positions → (i < j < n)%nat →
              get_distance a i j = Ok (dist a i j)) →
    ∃ drawn,
      atom_loop get_distance traj n positions plots = (Ok tt, plots ++ drawn) ∧
      curves drawn
      = (i ← positions;
         (fun j => (seq 0 (length traj), (fun a => dist a i j) <$> traj))
           <$> seq (i + 1) (n - (i + 1))).
Proof.
  induction positions as [|i rest IH]; intros plots Hd.
  - exists []. by rewrite app_nil_r.
  - simpl.
    destruct (pair_loop_ok traj i dist (seq (i + 1) (n - (i + 1))) plots)
      as (drawn1 & -> & Hc1).
    { intros a j Ha Hj. apply elem_of_seq in Hj. apply Hd; [done|by left|lia]. }
    edestruct IH as (drawn2 & -> & Hc2).
    { intros a i' j Ha Hi'. apply Hd; [done|by right]. }
    exists (drawn1 ++ drawn2). rewrite <- app_assoc. split; [done|].
    by rewrite curves_app, Hc1, Hc2.
Qed.

Lemma vib_analysis_run model image traj (dist : Atoms -> nat -> nat -> Q) :
  read_image model = Ok image →
  open_trajectory model = Ok traj →
  (∀ a i j, a ∈ traj → (i < j < length (atoms image))%nat →
            get_distance a i j = Ok (dist a i j)) →
  ∃ drawn,
    vib_analysis read_image open_trajectory get_distance model
    = (Ok tt, drawn ++ [PlotShow]) ∧
    curves drawn
    = (fun ij => (seq 0 (length traj), (fun a => dist a ij.1 ij.2) <$> traj))
        <$> atom_pairs (length (atoms image)).
Proof.
  intros Hread Htraj Hd. unfold vib_analysis. rewrite Hread, Htraj.
  rewrite length_fmap.
  destruct (atom_loop_ok traj (length (atoms image)) dist
              (seq 0 (length (atoms image) - 1)) []) as (drawn & -> & Hc).
  { intros a i j Ha _ Hij. by apply Hd. }
  exists drawn. split; [done|]. rewrite Hc. unfold atom_pairs.
  generalize (seq 0 (length (atoms image) - 1)). intros positions.
  induction positions as [|i rest IH]; [done|].
  rewrite !bind_cons, fmap_app, IH. f_equal.
  by rewrite <- list_fmap_compose.
Qed.

(** X19.  What is drawn: when every distance asked for can be computed, one
    curve per pair of atoms [i < j], in the order of the two loops, with
    one point per image of the trajectory ([x] running from 0), and
    [show] is called last. *)
Theorem vib_analysis_curves model image traj (dist : Atoms -> nat -> nat -> Q) :
  read_image model = Ok image →
  open_trajectory model = Ok traj →
  (∀ a i j, a ∈ traj → (i < j < length (atoms image))%nat →
            get_distance a i j = Ok (dist a i j)) →
  ∃ plots,
    vib_analysis read_image open_trajectory get_distance model = (Ok tt, plots) ∧
    curves plots
    = (fun ij => (seq 0 (length traj), (fun a => dist a ij.1 ij.2) <$> traj))
        <$> atom_pairs (length (atoms image)) ∧
    last plots = Some PlotShow.
Proof.
  intros Hread Htraj Hd.
  destruct (vib_analysis_run model image traj dist Hread Htraj Hd) as (drawn & -> & Hc).
  eexists. split; [done|]. split; [|by rewrite last_snoc].
  rewrite curves_app, Hc. simpl. by rewrite app_nil_r.
Qed.

(** X20.  How much is drawn: for [N] atoms and a trajectory of [T] images,
    exactly [N (N - 1) / 2] curves, each over the steps [0 .. T - 1] and
    with [T] values. *)
Theorem vib_analysis_curve_count model image traj (dist : Atoms -> nat -> nat -> Q) :
  read_image model = Ok image →
  open_trajectory model = Ok traj →
  (∀ a i j, a ∈ traj → (i < j < length (atoms image))%nat →
            get_distance a i j = Ok (dist a i j)) →
  ∃ plots,
    vib_analysis read_image open_trajectory get_distance model = (Ok tt, plots) ∧
    (2 * length (curves plots)
     = length (atoms image) * (length (atoms image) - 1))%nat ∧
    Forall (fun c => c.1 = seq 0 (length traj) ∧ length c.2 = length traj) (curves plots).
Proof.
  intros Hread Htraj Hd.
  destruct (vib_analysis_run model image traj dist Hread Htraj Hd) as (drawn & -> & Hc).
  eexists. split; [done|].
  rewrite curves_app, Hc. simpl. rewrite app_nil_r. split.
  - rewrite length_fmap. apply atom_pairs_count.
  - apply Forall_forall. intros c Hin.
    apply list_elem_of_fmap in Hin as (ij & -> & _). simpl.
    by rewrite length_fmap.
Qed.

Lemma pair_loop_no_show traj i js :
  ∀ plots, PlotShow ∉ plots → PlotShow ∉ (pair_loop get_distance traj i js plots).2.
Proof.
  induction js as [|j rest IH]; intros plots Hp; [done|].
  simpl. destruct (collect_distances get_distance traj i j []); [|done].
  apply IH. rewrite elem_of_app. intros [?|Hin]; [done|].
  repeat (apply elem_of_cons in Hin as [Hin|Hin]; [done|]).
  by apply elem_of_nil in Hin.
Qed.

Lemma atom_loop_no_show traj n positions :
  ∀ plots, PlotShow ∉ plots → PlotShow ∉ (atom_loop get_distance traj n positions plots).2.
Proof.
  induction positions as [|i rest IH]; intros plots Hp; [done|].
  simpl. pose proof (pair_loop_no_show traj i (seq (i + 1) (n - (i + 1))) plots Hp) as H1.
  destruct (pair_loop get_distance traj i (seq (i + 1) (n - (i + 1))) plots)
    as [[[]|e] plots']; simpl in *; [by apply IH|done].
Qed.

(** X21.  When reading the file or computing a distance raises, the call
    ends with that exception and [show] has not been called: whatever
    was drawn before the error is never displayed. *)
Theorem vib_analysis_no_show_on_error model e plots :
  vib_analysis read_image open_trajectory get_distance model = (Raise e, plots) →
  PlotShow ∉ plots.
Proof.
  unfold vib_analysis.
  destruct (read_image model) as [image|e1]; [|intros [= _ <-]; apply not_elem_of_nil].
  destruct (open_trajectory model) as [traj|e2]; [|intros [= _ <-]; apply not_elem_of_nil].
  pose proof (atom_loop_no_show traj (length (symbol <$> atoms image))
                (seq 0 (length (symbol <$> atoms image) - 1)) [] (not_elem_of_nil _)) as H.
  destruct (atom_loop get_distance traj _ _ []) as [[[]|e3] plots']; [done|].
  by intros [= _ <-].
Qed.

(** X22.  With fewer than two atoms there is no pair: nothing is drawn, no
    distance is asked for, and [show] is still called. *)
Theorem vib_analysis_few_atoms model image traj :
  read_image model = Ok image →
  open_trajectory model = Ok traj →
  (length (atoms image) ≤ 1)%nat →
  vib_analysis read_image open_trajectory get_distance model = (Ok tt, [PlotShow]).
Proof.
  intros Hread Htraj Hn. unfold vib_analysis. rewrite Hread, Htraj, length_fmap.
  by replace (length (atoms image) - 1)%nat with 0%nat by lia.
Qed.

End VibrationsProps.

(** * The exceptions of [switch_all_indices] *)








(** * The further properties on the concrete stores *)

Lemma forces_fit_crossing : forces_fit crossing h2_initial.
Proof. intros c Hc. discriminate Hc. Qed.

Lemma switch_indices_involution_witness :
  (structures w4_array !! 0%nat = Some formamide ∧ forces_fit w4_array formamide ∧
   comparable NumpyLegacy w4_array formamide ∧
   0 ≤ 0 < Z.of_nat (length (atoms formamide)) ∧
   0 ≤ 3 < Z.of_nat (length (atoms formamide))) ∧
  ∃ w1 w2 m2,
    switch_indices NumpyLegacy (VAtoms 0) (VInt 0) (VInt 3) w4_array
    = (Ok (VAtoms (length (structures w4_array))), w1) ∧
    switch_indices NumpyLegacy (VAtoms (length (structures w4_array))) (VInt 0) (VInt 3) w1
    = (Ok (VAtoms (S (length (structures w4_array)))), w2) ∧
    structures w2 !! S (length (structures w4_array)) = Some m2 ∧
    atoms m2 = atoms formamide ∧ calc m2 = calc formamide ∧
    ∀ c pc, calc formamide = Some c → calculators w4_array !! c = Some pc →
      ∃ pc2, calculators w2 !! c = Some pc2 ∧
             results_energy pc2 = results_energy pc ∧
             (∀ l, results_forces pc = Some (ListForces l) →
                   results_forces pc2 = Some (ListForces l)) ∧
             (∀ rows, results_forces pc = Some (ArrayForces rows) →
                      results_forces pc2
                      = Some (ArrayForces (overwrite_row rows (Z.to_nat 0) (Z.to_nat 3)))).
Proof.
  split.
  { split; [reflexivity|]. split; [exact forces_fit_w4_array|].
    split; [exact (comparable_legacy w4_array formamide)|simpl; lia]. }
  apply (switch_indices_involution NumpyLegacy w4_array 0%nat formamide 0 3);
    [reflexivity|exact forces_fit_w4_array|exact (comparable_legacy w4_array formamide)
    |simpl; lia|simpl; lia].
Defined.

Lemma switch_indices_negative_index_witness :
  (structures w4_array !! 0%nat = Some formamide ∧ forces_fit w4_array formamide ∧
   comparable NumpyLegacy w4_array formamide ∧
   - Z.of_nat (length (atoms formamide)) ≤ -1 < 0 ∧
   0 ≤ 0 < Z.of_nat (length (atoms formamide))) ∧
  switch_indices NumpyLegacy (VAtoms 0) (VInt (-1)) (VInt 0) w4_array
  = switch_indices NumpyLegacy (VAtoms 0)
                   (VInt (Z.of_nat (length (atoms formamide)) + -1)) (VInt 0) w4_array ∧
  switch_indices NumpyLegacy (VAtoms 0) (VInt (-1)) (VInt 0) w4_array
  = (Ok (VAtoms (length (structures w4_array))),
     swapped_world w4_array formamide
                   (Z.to_nat (Z.of_nat (length (atoms formamide)) + -1)) (Z.to_nat 0)).
Proof.
  split.
  { split; [reflexivity|]. split; [exact forces_fit_w4_array|].
    split; [exact (comparable_legacy w4_array formamide)|simpl; lia]. }
  apply (switch_indices_negative_index NumpyLegacy w4_array 0%nat formamide (-1) 0);
    [reflexivity|exact forces_fit_w4_array|exact (comparable_legacy w4_array formamide)
    |simpl; lia|simpl; lia].
Defined.

Lemma switch_indices_out_of_range_witness :
  (structures w4 !! 0%nat = Some formamide ∧ forces_fit w4 formamide ∧
   (4 < - Z.of_nat (length (atoms formamide)) ∨ Z.of_nat (length (atoms formamide)) ≤ 4)) ∧
  switch_indices NumpyStrict (VAtoms 0) (VInt 4) (VInt 0) w4 = (Raise IndexError, w4) ∧
  switch_indices NumpyStrict (VAtoms 0) (VInt 0) (VInt 4) w4 = (Raise IndexError, w4).
Proof.
  split; [split; [reflexivity|split; [exact forces_fit_w4|simpl; lia]]|].
  apply (switch_indices_out_of_range NumpyStrict w4 0%nat formamide 4 0);
    [reflexivity|exact forces_fit_w4|simpl; lia].
Defined.

Lemma switch_indices_missing_forces_witness :
  (structures w_idle !! 0%nat = Some formamide ∧ calc formamide = Some 0%nat ∧
   calculators w_idle !! 0%nat = Some idle_calc ∧ results_forces idle_calc = None) ∧
  switch_indices NumpyStrict (VAtoms 0) (VInt 0) (VInt 1) w_idle = (Raise KeyError, w_idle).
Proof.
  split; [repeat split|].
  apply (switch_indices_missing_forces NumpyStrict w_idle 0%nat formamide 0%nat
           idle_calc 0 1);
    reflexivity.
Defined.

Lemma switch_indices_no_calculator_witness :
  (structures crossing !! 0%nat = Some h2_initial ∧ calc h2_initial = None ∧
   0 ≤ 0 < Z.of_nat (length (atoms h2_initial)) ∧
   0 ≤ 1 < Z.of_nat (length (atoms h2_initial))) ∧
  switch_indices NumpyStrict (VAtoms 0) (VInt 0) (VInt 1) crossing
  = (Ok (VAtoms (length (structures crossing))),
     mkWorld (structures crossing
              ++ [mkAtoms (swap_pos (atoms h2_initial) (Z.to_nat 0) (Z.to_nat 1))
                          (cell h2_initial) (pbc h2_initial) None])
             (calculators crossing) (files crossing) (trace crossing)).
Proof.
  split; [repeat split; simpl; lia|].
  apply (switch_indices_no_calculator NumpyStrict crossing 0%nat h2_initial 0 1);
    [reflexivity|reflexivity|simpl; lia|simpl; lia].
Defined.

Lemma switch_indices_reads_before_check_witness :
  (files on_disk !! "initial.traj" = Some saved_initial ∧
   isinstance_int (VFloat (3 # 2)) = false ∧ isinstance_int (VInt 2) = true) ∧
  ∃ w', switch_indices NumpyStrict (VStr "initial.traj") (VFloat (3 # 2)) (VInt 2) on_disk
        = (Raise ValueError, w') ∧
        trace w' = trace on_disk ++ [EvRead "initial.traj"] ∧
        length (structures w') = S (length (structures on_disk)).
Proof.
  split; [repeat split|].
  apply (switch_indices_reads_before_check NumpyStrict on_disk "initial.traj"
           saved_initial (VFloat (3 # 2)) (VInt 2)); reflexivity.
Defined.

Lemma check_interpolation_reads_before_check_witness :
  (files on_disk !! "initial.traj" = Some saved_initial ∧
   files on_disk !! "final.traj" = Some saved_final ∧
   isinstance_int (VStr "5") = false) ∧
  ∃ w', check_interpolation overlap_checker linear_neb
          (VStr "initial.traj") (VStr "final.traj") (VStr "5") "linear" true true on_disk
        = (Raise ValueError, w') ∧
        trace w' = trace on_disk ++ [EvRead "initial.traj"; EvRead "final.traj"] ∧
        length (structures w') = S (S (length (structures on_disk))).
Proof.
  split; [repeat split|].
  apply (check_interpolation_reads_before_check overlap_checker linear_neb on_disk
           "initial.traj" "final.traj" saved_initial saved_final (VStr "5")
           "linear" true true); reflexivity.
Defined.

Lemma missing_file_propagates_witness :
  files w4 !! "missing.traj" = None ∧
  (switch_indices NumpyStrict (VStr "missing.traj") (VInt 0) (VInt 1) w4
   = (Raise FileNotFoundError,
      mkWorld (structures w4) (calculators w4) (files w4)
              (trace w4 ++ [EvRead "missing.traj"])) ∧
   switch_all_indices NumpyStrict small_int_is (VStr "missing.traj") [VInt 1; VInt 0] w4
   = (Raise FileNotFoundError,
      mkWorld (structures w4) (calculators w4) (files w4)
              (trace w4 ++ [EvRead "missing.traj"])) ∧
   check_interpolation overlap_checker linear_neb (VStr "missing.traj") (VAtoms 0)
                       (VInt 3) "linear" true true w4
   = (Raise FileNotFoundError,
      mkWorld (structures w4) (calculators w4) (files w4)
              (trace w4 ++ [EvRead "missing.traj"]))).
Proof.
  split; [reflexivity|].
  apply (missing_file_propagates NumpyStrict small_int_is overlap_checker linear_neb w4
           "missing.traj" (VInt 0) (VInt 1) [VInt 1; VInt 0] (VAtoms 0) (VInt 3)
           "linear" true true).
  reflexivity.
Defined.

Lemma check_interpolation_below_two_witness :
  (structures crossing !! 0%nat = Some h2_initial ∧
   structures crossing !! 1%nat = Some h2_final ∧ 1 < 2 ∧
   linear_neb "linear" [h2_initial; h2_final] = Ok [] ∧
   Forall2 (fun a b => overlap_checker a false = Ok b)
           (take (Z.to_nat 1) [h2_initial; h2_final]) [true]) ∧
  check_interpolation overlap_checker linear_neb
                      (VAtoms 0) (VAtoms 1) (VInt 1) "linear" false true crossing
  = (Ok (VBool (forallb id [true])),
     mkWorld (structures crossing) (calculators crossing) (files crossing)
             (trace crossing ++ [EvOpen "interpolation.traj"]
                ++ loop_events false true 0 (take (Z.to_nat 1) [h2_initial; h2_final])
                ++ [EvClose])) ∧
  (1 ≤ 0 → forallb id [true] = true).
Proof.
  split; [repeat split; try lia; repeat constructor|].
  refine (check_interpolation_below_two overlap_checker linear_neb crossing 0%nat 1%nat
            h2_initial h2_final 1 "linear" _ _ [] false true [true] _ _ _);
    [reflexivity|reflexivity|lia|reflexivity|repeat constructor].
Defined.

Lemma check_interpolation_save_off_witness :
  (structures crossing !! 0%nat = Some h2_initial ∧
   structures crossing !! 1%nat = Some h2_final ∧
   linear_neb "linear"
     ([h2_initial] ++ replicate (Z.to_nat (3 - 2)) (copy_of h2_initial) ++ [h2_final])
   = Ok crossing_geometries ∧
   Forall2 (fun a b => overlap_checker a false = Ok b)
           (take (Z.to_nat 3)
                 (band_of h2_initial h2_final (Z.to_nat (3 - 2)) crossing_geometries))
           [true; false; true]) ∧
  (check_interpolation overlap_checker linear_neb
     (VAtoms 0) (VAtoms 1) (VInt 3) "linear" false false crossing).1
  = (check_interpolation overlap_checker linear_neb
       (VAtoms 0) (VAtoms 1) (VInt 3) "linear" false true crossing).1 ∧
  writer_events
    (trace (check_interpolation overlap_checker linear_neb
              (VAtoms 0) (VAtoms 1) (VInt 3) "linear" false false crossing).2)
  = writer_events (trace crossing).
Proof.
  split; [repeat split; repeat constructor|].
  refine (check_interpolation_save_off overlap_checker linear_neb crossing 0%nat 1%nat
            h2_initial h2_final 3 "linear" _ _ crossing_geometries false
            [true; false; true] _ _);
    [reflexivity|reflexivity|reflexivity|repeat constructor].
Defined.

Lemma check_interpolation_print_numbering_witness :
  (structures crossing !! 0%nat = Some h2_initial ∧
   structures crossing !! 1%nat = Some h2_final ∧
   linear_neb "linear"
     ([h2_initial] ++ replicate (Z.to_nat (3 - 2)) (copy_of h2_initial) ++ [h2_final])
   = Ok crossing_geometries ∧
   Forall2 (fun a b => overlap_checker a true = Ok b)
           (take (Z.to_nat 3)
                 (band_of h2_initial h2_final (Z.to_nat (3 - 2)) crossing_geometries))
           [true; false; true]) ∧
  print_events
    (trace (check_interpolation overlap_checker linear_neb
              (VAtoms 0) (VAtoms 1) (VInt 3) "linear" true true crossing).2)
  = print_events (trace crossing)
    ++ ((fun k => EvPrintAssessing (Z.of_nat k + 1)) <$> seq 0 (Z.to_nat 3)).
Proof.
  split; [repeat split; repeat constructor|].
  refine (check_interpolation_print_numbering overlap_checker linear_neb crossing
            0%nat 1%nat h2_initial h2_final 3 "linear" _ _ crossing_geometries true
            [true; false; true] _ _ true);
    [reflexivity|reflexivity|reflexivity|repeat constructor].
Defined.

Lemma check_interpolation_frame_witness :
  (structures crossing !! 0%nat = Some h2_initial ∧
   structures crossing !! 1%nat = Some h2_final ∧
   linear_neb "linear"
     ([h2_initial] ++ replicate (Z.to_nat (3 - 2)) (copy_of h2_initial) ++ [h2_final])
   = Ok crossing_geometries ∧
   Forall2 (fun a b => overlap_checker a false = Ok b)
           (take (Z.to_nat 3)
                 (band_of h2_initial h2_final (Z.to_nat (3 - 2)) crossing_geometries))
           [true; false; true]) ∧
  calculators (check_interpolation overlap_checker linear_neb
                 (VAtoms 0) (VAtoms 1) (VInt 3) "linear" false true crossing).2
  = calculators crossing ∧
  length (structures (check_interpolation overlap_checker linear_neb
                        (VAtoms 0) (VAtoms 1) (VInt 3) "linear" false true crossing).2)
  = (length (structures crossing) + Z.to_nat (3 - 2))%nat ∧
  ∀ j, (j < length (structures crossing))%nat →
       structures (check_interpolation overlap_checker linear_neb
                     (VAtoms 0) (VAtoms 1) (VInt 3) "linear" false true crossing).2 !! j
       = structures crossing !! j.
Proof.
  split; [repeat split; repeat constructor|].
  refine (check_interpolation_frame overlap_checker linear_neb crossing
            0%nat 1%nat h2_initial h2_final 3 "linear" _ _ crossing_geometries false
            [true; false; true] _ _ true);
    [reflexivity|reflexivity|reflexivity|repeat constructor].
Defined.

Lemma check_interpolation_neb_failure_witness :
  (structures crossing !! 0%nat = Some h2_initial ∧
   structures crossing !! 1%nat = Some h2_final ∧
   linear_only_neb "idpp"
     ([h2_initial] ++ replicate (Z.to_nat (4 - 2)) (copy_of h2_initial) ++ [h2_final])
   = Raise (ExternalError "NEB")) ∧
  check_interpolation overlap_checker linear_only_neb
                      (VAtoms 0) (VAtoms 1) (VInt 4) "idpp" true true crossing
  = (Raise (ExternalError "NEB"),
     mkWorld (structures crossing ++ replicate (Z.to_nat (4 - 2)) (copy_of h2_initial))
             (calculators crossing) (files crossing) (trace crossing)).
Proof.
  split; [repeat split|].
  refine (check_interpolation_neb_failure overlap_checker linear_only_neb crossing
            0%nat 1%nat h2_initial h2_final 4 "idpp" _ _
            (ExternalError "NEB") true true _); reflexivity.
Defined.

Lemma switch_all_indices_identity_witness :
  (structures w4_array !! 0%nat = Some formamide ∧ forces_fit w4_array formamide ∧
   comparable NumpyLegacy w4_array formamide) ∧
  ∃ id' w' m',
    switch_all_indices NumpyLegacy (fun _ _ => false) (VAtoms 0)
                       (targets (seq 0 (length (atoms formamide)))) w4_array
    = (Ok (VAtoms id'), w') ∧
    structures w' !! id' = Some m' ∧
    atoms m' = atoms formamide ∧ calc m' = calc formamide ∧
    ∀ c pc, calc formamide = Some c → calculators w4_array !! c = Some pc →
      ∃ pc', calculators w' !! c = Some pc' ∧
             results_forces pc' = results_forces pc ∧
             results_energy pc' = results_energy pc.
Proof.
  split.
  { split; [reflexivity|]. split; [exact forces_fit_w4_array|].
    exact (comparable_legacy w4_array formamide). }
  apply (switch_all_indices_identity NumpyLegacy (fun _ _ => false) w4_array 0%nat
           formamide);
    [reflexivity|exact forces_fit_w4_array|exact (comparable_legacy w4_array formamide)].
Defined.

Lemma pair_swaps_involutive :
  ∀ i j, [1; 0; 3; 2]%nat !! i = Some j → [1; 0; 3; 2]%nat !! j = Some i.
Proof. intros [|[|[|[|i]]]] j Hj; try done; by injection Hj as <-. Qed.

Lemma switch_all_indices_involution_witness :
  ((∀ a b, small_int_is a b = true → a = b) ∧
   structures w4 !! 0%nat = Some formamide ∧ forces_fit w4 formamide ∧
   comparable NumpyStrict w4 formamide ∧
   length [1; 0; 3; 2]%nat = length (atoms formamide) ∧
   (∀ i j, [1; 0; 3; 2]%nat !! i = Some j → [1; 0; 3; 2]%nat !! j = Some i)) ∧
  ∃ id' w' m',
    switch_all_indices NumpyStrict small_int_is (VAtoms 0) (targets [1; 0; 3; 2]%nat) w4
    = (Ok (VAtoms id'), w') ∧
    structures w' !! id' = Some m' ∧
    length (atoms m') = length (atoms formamide) ∧
    (∀ i j, [1; 0; 3; 2]%nat !! i = Some j → atoms m' !! i = atoms formamide !! j) ∧
    calc m' = calc formamide ∧
    ∀ c pc f, calc formamide = Some c → calculators w4 !! c = Some pc →
      results_forces pc = Some (ListForces f) →
      ∃ pc' f', calculators w' !! c = Some pc' ∧
                results_forces pc' = Some (ListForces f') ∧
                results_energy pc' = results_energy pc ∧
                length f' = length f ∧
                ∀ i j, [1; 0; 3; 2]%nat !! i = Some j → f' !! i = f !! j.
Proof.
  split.
  { split; [exact small_int_is_sound|]. split; [reflexivity|].
    split; [exact forces_fit_w4|]. split; [exact (comparable_w4 NumpyStrict)|].
    split; [reflexivity|exact pair_swaps_involutive]. }
  apply (switch_all_indices_involution NumpyStrict small_int_is w4 0%nat formamide
           [1; 0; 3; 2]%nat);
    [exact small_int_is_sound|reflexivity|exact forces_fit_w4
    |exact (comparable_w4 NumpyStrict)|reflexivity|exact pair_swaps_involutive].
Defined.

Lemma repeated_target_in_range :
  ∀ i v, [VInt 1; VInt 1; VInt 3; VInt 0] !! i = Some v →
         ∃ z, v = VInt z ∧ 0 ≤ z < Z.of_nat (length (atoms formamide)).
Proof.
  intros [|[|[|[|i]]]] v Hv; try done; injection Hv as <-;
    eexists; (split; [reflexivity|simpl; lia]).
Qed.

Lemma switch_all_indices_keeps_atoms_witness :
  (structures w4_array !! 0%nat = Some formamide ∧ forces_fit w4_array formamide ∧
   comparable NumpyLegacy w4_array formamide ∧
   (length [VInt 1; VInt 1; VInt 3; VInt 0] ≤ length (atoms formamide))%nat ∧
   (∀ i v, [VInt 1; VInt 1; VInt 3; VInt 0] !! i = Some v →
           ∃ z, v = VInt z ∧ 0 ≤ z < Z.of_nat (length (atoms formamide)))) ∧
  ∃ id' w' m',
    switch_all_indices NumpyLegacy small_int_is (VAtoms 0)
                       [VInt 1; VInt 1; VInt 3; VInt 0] w4_array
    = (Ok (VAtoms id'), w') ∧
    structures w' !! id' = Some m' ∧
    atoms m' ≡ₚ atoms formamide ∧
    calc m' = calc formamide ∧ cell m' = cell formamide ∧ pbc m' = pbc formamide.
Proof.
  split.
  { split; [reflexivity|]. split; [exact forces_fit_w4_array|].
    split; [exact (comparable_legacy w4_array formamide)|].
    split; [simpl; lia|exact repeated_target_in_range]. }
  apply (switch_all_indices_keeps_atoms NumpyLegacy small_int_is w4_array 0%nat formamide
           [VInt 1; VInt 1; VInt 3; VInt 0]);
    [reflexivity|exact forces_fit_w4_array|exact (comparable_legacy w4_array formamide)
    |simpl; lia|exact repeated_target_in_range].
Defined.



Lemma h2_distances_known :
  ∀ a i j, a ∈ [h2_initial; h2_final] → (i < j < length (atoms h2_initial))%nat →
           x_distance a i j = Ok (x_distance_or_zero a i j).
Proof.
  intros a i j Ha Hij. simpl in Hij.
  assert (i = 0%nat ∧ j = 1%nat) as [-> ->] by lia.
  apply elem_of_cons in Ha as [->|Ha]; [reflexivity|].
  apply elem_of_cons in Ha as [->|Ha]; [reflexivity|].
  by apply elem_of_nil in Ha.
Qed.

Lemma vib_analysis_curves_witness :
  ((fun _ : string => Ok h2_initial) "h2.traj" = Ok h2_initial ∧
   (fun _ : string => Ok [h2_initial; h2_final]) "h2.traj" = Ok [h2_initial; h2_final] ∧
   (∀ a i j, a ∈ [h2_initial; h2_final] → (i < j < length (atoms h2_initial))%nat →
             x_distance a i j = Ok (x_distance_or_zero a i j))) ∧
  ∃ plots,
    vib_analysis (fun _ => Ok h2_initial) (fun _ => Ok [h2_initial; h2_final])
                 x_distance "h2.traj" = (Ok tt, plots) ∧
    curves plots
    = (fun ij => (seq 0 (length [h2_initial; h2_final]),
                  (fun a => x_distance_or_zero a ij.1 ij.2) <$> [h2_initial; h2_final]))
        <$> atom_pairs (length (atoms h2_initial)) ∧
    last plots = Some PlotShow.
Proof.
  split; [split; [reflexivity|split; [reflexivity|exact h2_distances_known]]|].
  apply (vib_analysis_curves (fun _ => Ok h2_initial) (fun _ => Ok [h2_initial; h2_final])
           x_distance "h2.traj" h2_initial [h2_initial; h2_final] x_distance_or_zero);
    [reflexivity|reflexivity|exact h2_distances_known].
Defined.

Lemma vib_analysis_curve_count_witness :
  ((fun _ : string => Ok h2_initial) "h2.traj" = Ok h2_initial ∧
   (fun _ : string => Ok [h2_initial; h2_final]) "h2.traj" = Ok [h2_initial; h2_final] ∧
   (∀ a i j, a ∈ [h2_initial; h2_final] → (i < j < length (atoms h2_initial))%nat →
             x_distance a i j = Ok (x_distance_or_zero a i j))) ∧
  ∃ plots,
    vib_analysis (fun _ => Ok h2_initial) (fun _ => Ok [h2_initial; h2_final])
                 x_distance "h2.traj" = (Ok tt, plots) ∧
    (2 * length (curves plots)
     = length (atoms h2_initial) * (length (atoms h2_initial) - 1))%nat ∧
    Forall (fun c => c.1 = seq 0 (length [h2_initial; h2_final]) ∧
                     length c.2 = length [h2_initial; h2_final]) (curves plots).
Proof.
  split; [split; [reflexivity|split; [reflexivity|exact h2_distances_known]]|].
  apply (vib_analysis_curve_count (fun _ => Ok h2_initial)
           (fun _ => Ok [h2_initial; h2_final])
           x_distance "h2.traj" h2_initial [h2_initial; h2_final] x_distance_or_zero);
    [reflexivity|reflexivity|exact h2_distances_known].
Defined.

Lemma vib_analysis_no_show_on_error_witness :
  vib_analysis (fun _ => Ok formamide) (fun _ => Ok [formamide; h2_final])
               x_distance "run.traj"
  = (Raise IndexError,
     [PlotCurve [0; 1]%nat [1%Q; 2%Q]; PlotXLabel "step"; PlotYLabel "displacement"]) ∧
  PlotShow ∉ [PlotCurve [0; 1]%nat [1%Q; 2%Q]; PlotXLabel "step";
              PlotYLabel "displacement"].
Proof.
  split; [by vm_compute|].
  apply (vib_analysis_no_show_on_error (fun _ => Ok formamide)
           (fun _ => Ok [formamide; h2_final]) x_distance "run.traj" IndexError).
  by vm_compute.
Defined.

Lemma vib_analysis_few_atoms_witness :
  ((fun _ : string => Ok lone_hydrogen) "h.traj" = Ok lone_hydrogen ∧
   (fun _ : string => Ok [lone_hydrogen]) "h.traj" = Ok [lone_hydrogen] ∧
   (length (atoms lone_hydrogen) ≤ 1)%nat) ∧
  vib_analysis (fun _ => Ok lone_hydrogen) (fun _ => Ok [lone_hydrogen])
               x_distance "h.traj" = (Ok tt, [PlotShow]).
Proof.
  split; [repeat split; simpl; lia|].
  apply (vib_analysis_few_atoms (fun _ => Ok lone_hydrogen) (fun _ => Ok [lone_hydrogen])
           x_distance "h.traj" lone_hydrogen [lone_hydrogen]);
    [reflexivity|reflexivity|simpl; lia].
Defined.

(** * A bond check that raises *)

Section CheckRaises.

Variable search_abnormal_bonds : Atoms -> bool -> outcome bool.
Variable neb_interpolate : string -> list Atoms -> outcome (list (list Atom)).

Lemma assess_loop_raises images verbose save structs cs fs a after e before :
  ∀ bs s flag tr,
    (∀ j x, (before ++ [a]) !! j = Some x →
       ∃ v, images !! (s + j)%nat = Some v ∧ image_of structs v = Some x) →
    Forall2 (fun x b => search_abnormal_bonds x verbose = Ok b) before bs →
    search_abnormal_bonds a verbose = Raise e →
    assess_loop search_abnormal_bonds images verbose save
                (seq s (length before + S after)) flag (mkWorld structs cs fs tr)
    = (Raise e,
       mkWorld structs cs fs
               (tr ++ loop_events verbose save s before
                   ++ (if verbose
                       then [EvPrintAssessing (Z.of_nat (s + length before) + 1)]
                       else []))).
Proof.
  induction before as [|x rest IH]; intros bs s flag tr Himg Hchk Hraise.
  - destruct (Himg 0%nat a eq_refl) as (v & Hv & Ha).
    rewrite Nat.add_0_r in Hv.
    assert (∀ tr', get_atoms v (mkWorld structs cs fs tr')
                   = (Ok a, mkWorld structs cs fs tr')) as Hget.
    { intros tr'. destruct v; try done. simpl in *. by rewrite Ha. }
    cbn [length Nat.add seq assess_loop loop_events app]. rewrite Hv, Nat.add_0_r.
    destruct verbose; unfold emit, ret, bind, lift; simpl;
      by rewrite Hget, Hraise, ?app_nil_r.
  - apply Forall2_cons_inv_l in Hchk as (b & bs' & Hb & Hrest & ->).
    destruct (Himg 0%nat x eq_refl) as (v & Hv & Hx).
    rewrite Nat.add_0_r in Hv.
    assert (∀ tr', get_atoms v (mkWorld structs cs fs tr')
                   = (Ok x, mkWorld structs cs fs tr')) as Hget.
    { intros tr'. destruct v; try done. simpl in *. by rewrite Hx. }
    cbn [length Nat.add seq assess_loop loop_events]. unfold bind at 1.
    assert (∀ flag' tr',
      assess_loop search_abnormal_bonds images verbose save
                  (seq (S s) (length rest + S after)) flag' (mkWorld structs cs fs tr')
      = (Raise e,
         mkWorld structs cs fs
                 (tr' ++ loop_events verbose save (S s) rest
                      ++ (if verbose
                          then [EvPrintAssessing (Z.of_nat (s + S (length rest)) + 1)]
                          else [])))) as Hnext.
    { intros flag' tr'.
      replace (s + S (length rest))%nat with (S s + length rest)%nat by lia.
      apply (IH bs'); [|done|done].
      intros j y Hj. destruct (Himg (S j) y Hj) as (v' & Hv' & Hy).
      exists v'. split; [|done].
      by replace (S s + j)%nat with (s + S j)%nat by lia. }
    rewrite Hv.
    destruct verbose, save; unfold emit, ret, bind, lift; simpl;
      rewrite Hget, Hb; simpl; rewrite Hnext; simpl;
      by rewrite <- ?app_assoc.
Qed.

(** X23.  When the bond check raises on an image, the call ends with
    that exception in the middle of the loop: the images before it have
    been assessed and, with [save], written to the file that was opened,
    the image itself has not been written, and the writer is not
    closed. *)
Theorem check_interpolation_check_raises
        w i0 i1 a0 a1 n interpolation geometries verbose save before a after e bs :
  structures w !! i0 = Some a0 →
  structures w !! i1 = Some a1 →
  neb_interpolate interpolation
    ([a0] ++ replicate (Z.to_nat (n - 2)) (copy_of a0) ++ [a1]) = Ok geometries →
  take (Z.to_nat n) (band_of a0 a1 (Z.to_nat (n - 2)) geometries)
  = before ++ a :: after →
  Forall2 (fun x b => search_abnormal_bonds x verbose = Ok b) before bs →
  search_abnormal_bonds a verbose = Raise e →
  check_interpolation search_abnormal_bonds neb_interpolate
                      (VAtoms i0) (VAtoms i1) (VInt n) interpolation verbose save w
  = (Raise e,
     mkWorld
       (structures w
        ++ with_geometries (replicate (Z.to_nat (n - 2)) (copy_of a0)) geometries)
       (calculators w) (files w)
       (trace w ++ (if save then [EvOpen "interpolation.traj"] else [])
                ++ loop_events verbose save 0 before
                ++ (if verbose
                    then [EvPrintAssessing (Z.of_nat (length before) + 1)]
                    else []))).
Proof.
  intros Hinitial Hfinal Hneb Hband Hchk Hraise.
  match goal with |- _ = ?r => set (result := r) end.
  unfold check_interpolation. unfold bind at 1 2. unfold ret at 1 2. simpl.
  unfold bind at 1. rewrite (build_images_ok _ _ _ _ _ _ _ _ _ Hinitial Hfinal Hneb).
  pose proof (band_images (structures w)
    (with_geometries (replicate (Z.to_nat (n - 2)) (copy_of a0)) geometries)
    _ _ _ _ Hinitial Hfinal) as Himages.
  rewrite length_with_geometries, length_replicate in Himages.
  assert (Z.to_nat n = (length before + S (length after))%nat) as ->.
  { apply (f_equal length) in Hband.
    rewrite length_take, length_app in Hband. simpl in Hband.
    unfold band_of in Hband. simpl in Hband.
    rewrite length_app, length_with_geometries, length_replicate in Hband.
    simpl in Hband. lia. }
  assert (∀ tr, assess_loop search_abnormal_bonds
             ([VAtoms i0] ++ (VAtoms <$> seq (length (structures w)) (Z.to_nat (n - 2)))
              ++ [VAtoms i1]) verbose save
             (seq 0 (length before + S (length after))) true
             (mkWorld (structures w ++ with_geometries
                         (replicate (Z.to_nat (n - 2)) (copy_of a0)) geometries)
                      (calculators w) (files w) tr)
           = (Raise e,
              mkWorld (structures w ++ with_geometries
                         (replicate (Z.to_nat (n - 2)) (copy_of a0)) geometries)
                      (calculators w) (files w)
                      (tr ++ loop_events verbose save 0 before
                          ++ (if verbose
                              then [EvPrintAssessing (Z.of_nat (0 + length before) + 1)]
                              else [])))) as Hloop.
  { intros tr. apply (assess_loop_raises _ _ _ _ _ _ a (length after) e before bs);
      [|done|done].
    intros j x Hx.
    assert ((before ++ a :: after) !! j = Some x) as Hx'.
    { rewrite (cons_middle a), app_assoc. apply lookup_app_l_Some. exact Hx. }
    rewrite <- Hband in Hx'. apply lookup_take_Some in Hx' as [Hx' _].
    eapply Forall2_lookup_r in Himages as (v & Hv & Hva); [|exact Hx'].
    eauto. }
  destruct save; unfold bind, emit, ret; cbn [structures calculators files trace];
    rewrite Hloop; cbn [structures calculators files trace]; subst result; simpl.
  - by rewrite <- !app_assoc.
  - done.
Qed.

End CheckRaises.

Lemma check_interpolation_check_raises_witness :
  (structures crossing !! 0%nat = Some h2_initial ∧
   structures crossing !! 1%nat = Some h2_final ∧
   linear_neb "linear"
     ([h2_initial] ++ replicate (Z.to_nat (3 - 2)) (copy_of h2_initial) ++ [h2_final])
   = Ok crossing_geometries ∧
   take (Z.to_nat 3) (band_of h2_initial h2_final (Z.to_nat (3 - 2)) crossing_geometries)
   = [h2_initial]
     ++ mkAtoms [mkAtom "H" (1%Q, 0%Q, 0%Q) 0; mkAtom "H" (1%Q, 0%Q, 0%Q) 2]
                no_cell (false, false, false) None
     :: [h2_final] ∧
   Forall2 (fun x b => strict_checker x true = Ok b) [h2_initial] [true] ∧
   strict_checker (mkAtoms [mkAtom "H" (1%Q, 0%Q, 0%Q) 0; mkAtom "H" (1%Q, 0%Q, 0%Q) 2]
                           no_cell (false, false, false) None) true
   = Raise (ExternalError "search_abnormal_bonds")) ∧
  check_interpolation strict_checker linear_neb
                      (VAtoms 0) (VAtoms 1) (VInt 3) "linear" true true crossing
  = (Raise (ExternalError "search_abnormal_bonds"),
     mkWorld
       (structures crossing
        ++ with_geometries (replicate (Z.to_nat (3 - 2)) (copy_of h2_initial))
                           crossing_geometries)
       (calculators crossing) (files crossing)
       (trace crossing ++ [EvOpen "interpolation.traj"]
                ++ loop_events true true 0 [h2_initial]
                ++ [EvPrintAssessing (Z.of_nat (length [h2_initial]) + 1)])).
Proof.
  split; [repeat split; repeat constructor|].
  refine (check_interpolation_check_raises strict_checker linear_neb crossing
            0%nat 1%nat h2_initial h2_final 3 "linear" crossing_geometries true true
            [h2_initial] _ [h2_final] (ExternalError "search_abnormal_bonds") [true]
            _ _ _ _ _ _);
    [reflexivity|reflexivity|reflexivity|reflexivity|repeat constructor|reflexivity].
Defined.
